(** * llamabot: QueryBot and the scoped prompt recorder

    A shallow embedding of [llamabot/bot/querybot.py] and of the recorder
    part of [llamabot/recorder.py], with the properties of the
    retrieval-augmented query flow stated over it.

    Layout:
    - Python exceptions and the [pathlib] operations that [QueryBot.save]
      uses (POSIX flavour);
    - messages, the collaborators (vector index, chat model, document
      loader) as an interface, and the world the program runs in;
    - [PromptRecorder], [autorecord], [QueryBot];
    - a small concrete collaborator instance used to run the definitions;
    - the properties. *)

From Stdlib Require Import ZArith Ascii String List Lia.
From stdpp Require Import base option list strings gmap.

(** ** Exceptions

    Only the exception classes the code under study raises itself are told
    apart; whatever a collaborator raises is carried along as it is. *)

Inductive Exn : Type :=
| ValueError (msg : string)
| AttributeError (msg : string)
| OtherError (cls msg : string).

Definition Result (A : Type) : Type := (Exn + A)%type.

(** ** Python [str] operations used below *)

Module str.

Definition len (s : string) : Z := Z.of_nat (String.length s).

(** [s.rfind(c)] for a one-character [c]: highest index, or [-1]. *)
Fixpoint rfind_from (c : ascii) (s : string) (i last : Z) : Z :=
  match s with
  | EmptyString => last
  | String a s' =>
      rfind_from c s' (i + 1)%Z (if Ascii.eqb a c then i else last)
  end.

Definition rfind (s : string) (c : ascii) : Z := rfind_from c s 0%Z (-1)%Z.

(** [s[n:]] and [s[:n]] for [0 <= n]. *)
Fixpoint from (n : nat) (s : string) : string :=
  match n, s with
  | O, _ => s
  | S _, EmptyString => EmptyString
  | S n', String _ s' => from n' s'
  end.

Fixpoint upto (n : nat) (s : string) : string :=
  match n, s with
  | O, _ => EmptyString
  | S _, EmptyString => EmptyString
  | S n', String a s' => String a (upto n' s')
  end.

(** [c in s] *)
Fixpoint contains (c : ascii) (s : string) : bool :=
  match s with
  | EmptyString => false
  | String a s' => Ascii.eqb a c || contains c s'
  end.

Definition startswith (s : string) (c : ascii) : bool :=
  match s with
  | String a _ => Ascii.eqb a c
  | EmptyString => false
  end.

(** [s.lstrip(c)] *)
Fixpoint lstrip (c : ascii) (s : string) : string :=
  match s with
  | String a s' => if Ascii.eqb a c then lstrip c s' else s
  | EmptyString => EmptyString
  end.

(** [s.split(c)]: never empty, [''.split(c) = ['']]. *)
Fixpoint split (c : ascii) (s : string) : list string :=
  match s with
  | EmptyString => [EmptyString]
  | String a s' =>
      if Ascii.eqb a c then EmptyString :: split c s'
      else match split c s' with
           | x :: xs => String a x :: xs
           | [] => [String a EmptyString]
           end
  end.

(** [sep.join(l)] *)
Fixpoint join (sep : string) (l : list string) : string :=
  match l with
  | [] => EmptyString
  | [x] => x
  | x :: l' => x +:+ sep +:+ join sep l'
  end.

Definition nonempty (s : string) : bool :=
  match s with EmptyString => false | _ => true end.

End str.

(** ** [pathlib.PurePosixPath]

    A parsed path: the root ([""], ["/"] or ["//"]) and the components after
    it.  The drive of the POSIX flavour is always empty. *)

Module pathlib.

Record PurePath : Type := mkPath { root : string; tail : list string }.

Definition sep : ascii := "/"%char.
Definition dot : ascii := "."%char.

(** [_PosixFlavour.splitroot]: exactly two leading slashes are kept, any
    other number of them is one. *)
Definition splitroot (part : string) : string * string :=
  if str.startswith part sep then
    let stripped_part := str.lstrip sep part in
    if (str.len part - str.len stripped_part =? 2)%Z
    then ("//", stripped_part)
    else ("/", stripped_part)
  else ("", part).

(** [parse_parts] on one string: empty and ["."] components are dropped. *)
Definition parse (part : string) : PurePath :=
  let '(rt, rel) := splitroot part in
  mkPath rt
    (filter (fun x => str.nonempty x && negb (String.eqb x ".") = true)
            (str.split sep rel)).

(** [str(path)] *)
Definition to_str (p : PurePath) : string :=
  match root p +:+ str.join "/" (tail p) with
  | EmptyString => "."
  | s => s
  end.

(** [repr(path)], for paths whose text needs no escaping. *)
Definition repr (p : PurePath) : string :=
  "PosixPath('" +:+ to_str p +:+ "')".

(** [path.name] *)
Definition name (p : PurePath) : string := List.last (tail p) EmptyString.

Definition suffix_of_name (nm : string) : string :=
  let i := str.rfind nm dot in
  if ((0 <? i) && (i <? str.len nm - 1))%Z
  then str.from (Z.to_nat i) nm
  else EmptyString.

(** [path.suffix] *)
Definition suffix (p : PurePath) : string := suffix_of_name (name p).

(** [path.stem] *)
Definition stem (p : PurePath) : string :=
  let nm := name p in
  let i := str.rfind nm dot in
  if ((0 <? i) && (i <? str.len nm - 1))%Z
  then str.upto (Z.to_nat i) nm
  else nm.

(** [path.with_suffix(suffix)] *)
Definition with_suffix (p : PurePath) (sfx : string) : Result PurePath :=
  if str.contains sep sfx then
    inl (ValueError ("Invalid suffix '" +:+ sfx +:+ "'"))
  else if (str.nonempty sfx && negb (str.startswith sfx dot))
          || String.eqb sfx "." then
    inl (ValueError ("Invalid suffix '" +:+ sfx +:+ "'"))
  else
    let nm := name p in
    if negb (str.nonempty nm) then
      inl (ValueError (repr p +:+ " has an empty name"))
    else
      let old_suffix := suffix p in
      let nm' :=
        if negb (str.nonempty old_suffix) then nm +:+ sfx
        else str.upto (String.length nm - String.length old_suffix) nm
               +:+ sfx in
      inr (mkPath (root p) (removelast (tail p) ++ [nm'])).

(** What the code accepts where it says [Union[str, Path]]. *)
Inductive PathLike : Type :=
| PStr (s : string)
| PPath (p : PurePath).

(** [Path(path)] *)
Definition Path (a : PathLike) : PurePath :=
  match a with
  | PStr s => parse s
  | PPath p => p
  end.

End pathlib.

Import pathlib.

(** ** Messages ([langchain.schema]) *)

Inductive Role : Type := system | human | assistant.

Record Message : Type := mkMessage { role : Role; content : string }.

Definition SystemMessage (c : string) : Message := mkMessage system c.
Definition HumanMessage (c : string) : Message := mkMessage human c.
Definition AIMessage (c : string) : Message := mkMessage assistant c.

(** ** Collaborators

    The vector index, the chat model and the persisted index files belong to
    libraries; [magic_load_doc] and [split_document] belong to
    [llamabot.doc_processor].  None of them is part of the files studied
    here, so they are taken as an interface: each operation is a transition
    on [Ext], the state of everything outside the bot (disk, network,
    model), and may raise. *)

Class Collaborators : Type := {
  Ext : Type;
  (** state of a [GPTSimpleVectorIndex] object *)
  Index : Type;
  (** a loaded document, and one of the chunks it is split into *)
  Document : Type;
  Doc : Type;
  (** an element of [response.source_nodes]; the code reads [n.node.text] *)
  SourceNode : Type;
  node_text : SourceNode -> string;
  (** the [temperature] number and the [ChatOpenAI] object built from it *)
  Temperature : Type;
  ChatOpenAI : Type;
  new_chat : string -> Temperature -> ChatOpenAI;
  (** [GPTSimpleVectorIndex(nodes=[], service_context=...)] *)
  new_index : ChatOpenAI -> Index;
  load_from_disk : PathLike -> ChatOpenAI -> Ext -> Result Index * Ext;
  save_to_disk : Index -> PurePath -> Ext -> Result unit * Ext;
  (** [index.insert(doc)] works in place: the index is given back in the
      state the call left it in, also when it raises *)
  index_insert : Index -> Doc -> Ext -> Result unit * Index * Ext;
  (** [index.query(query, similarity_top_k=k, response_mode="no_text")];
      a query reads the index object and leaves it as it is *)
  index_query : Index -> string -> Z -> Ext -> Result (list SourceNode) * Ext;
  (** [chat(messages)] *)
  chat_call : ChatOpenAI -> list Message -> Ext -> Result Message * Ext;
  magic_load_doc : PathLike -> Ext -> Result Document * Ext;
  split_document : Document -> Z -> Z -> Ext -> Result (list Doc) * Ext
}.

(** ** State and error monad

    A computation runs from a state, and ends in a value or in a raised
    exception together with the state reached: what was written before a
    [raise] stays written. *)

Definition M (S A : Type) : Type := S -> Result A * S.

Definition ret {S A : Type} (a : A) : M S A := fun s => (inr a, s).

Definition raise {S A : Type} (e : Exn) : M S A := fun s => (inl e, s).

Definition bind {S A B : Type} (m : M S A) (k : A -> M S B) : M S B :=
  fun s =>
    match m s with
    | (inr a, s') => k a s'
    | (inl e, s') => (inl e, s')
    end.

Definition gets {S A : Type} (f : S -> A) : M S A := fun s => (inr (f s), s).

Definition modify {S : Type} (f : S -> S) : M S unit := fun s => (inr tt, f s).

Declare Scope py_scope.
Delimit Scope py_scope with py.
Notation "x <- m ;; k" := (bind m (fun x => k))
  (at level 100, m at next level, right associativity) : py_scope.
Notation "m ;; k" := (bind m (fun _ => k))
  (at level 100, right associativity) : py_scope.

(** [for x in l: body(x)] *)
Fixpoint for_each {S A : Type} (l : list A) (body : A -> M S unit) : M S unit :=
  match l with
  | [] => ret tt
  | x :: l' => bind (body x) (fun _ => for_each l' body)
  end.

(** ** The scoped prompt recorder ([llamabot/recorder.py]) *)

(** [{"prompt": prompt, "response": response}] *)
Record RecorderEntry : Type := mkEntry { prompt : string; response : string }.

(** A [PromptRecorder] object is known by its identity. *)
Abbreviation Ref := nat (only parsing).

Record PromptRecorder : Type :=
  mkRecorder { prompts_and_responses : list RecorderEntry }.

(** [contextvars.ContextVar]: never set, or holding a value. *)
Inductive ContextVar (A : Type) : Type :=
| Unset
| Bound (v : A).
Arguments Unset {A}.
Arguments Bound {A} v.

(** [var.get(default)] *)
Definition ctx_get {A : Type} (var : ContextVar A) (default : A) : A :=
  match var with
  | Unset => default
  | Bound v => v
  end.

(** Lines sent to the [loguru] logger. *)
Inductive LogLine : Type :=
| WarnNoDocuments
| InfoQuerying (similarity_top_k : Z)
| InfoInserting (path : PathLike).

Section Program.

Context `{C : Collaborators}.

(** *** The world

    What lies outside the bot objects: the collaborators' state, the
    record of every call made to a collaborator (oldest first), the lines
    logged, the module-level [prompt_recorder_var] of
    [llamabot.recorder], and the [PromptRecorder] objects alive. *)

Inductive Call : Type :=
| CallLoadFromDisk (path : PathLike)
| CallSaveToDisk (path : PurePath)
| CallIndexInsert (doc : Doc)
| CallIndexQuery (query : string) (similarity_top_k : Z)
| CallChat (messages : list Message)
| CallMagicLoadDoc (path : PathLike)
| CallSplitDocument (chunk_size chunk_overlap : Z).

Record World : Type := mkWorld {
  ext : Ext;
  calls : list Call;
  logged : list LogLine;
  prompt_recorder_var : ContextVar (option Ref);
  recorders : gmap nat PromptRecorder
}.

Definition set_recorder_var (v : ContextVar (option Ref)) (w : World) : World :=
  mkWorld (ext w) (calls w) (logged w) v (recorders w).

Definition set_recorders (h : gmap nat PromptRecorder) (w : World) : World :=
  mkWorld (ext w) (calls w) (logged w) (prompt_recorder_var w) h.

(** One call to a collaborator: it is recorded, and its effect on the
    outside is kept whether it returns or raises. *)
Definition invoke {A : Type} (c : Call) (op : Ext -> Result A * Ext)
  : M World A :=
  fun w =>
    let '(r, e) := op (ext w) in
    (r, mkWorld e (calls w ++ [c]) (logged w)
                (prompt_recorder_var w) (recorders w)).

Definition logger (l : LogLine) : M World unit :=
  modify (fun w => mkWorld (ext w) (calls w) (logged w ++ [l])
                           (prompt_recorder_var w) (recorders w)).

(** Run a computation on the world next to some object state [S]. *)
Definition liftW {S A : Type} (m : M World A) : M (S * World) A :=
  fun '(s, w) => let '(r, w') := m w in (r, (s, w')).

(** *** [class PromptRecorder] *)

(** [PromptRecorder()] : a new object with no entries *)
Definition PromptRecorder_new : M World Ref :=
  fun w =>
    let r := fresh (dom (recorders w)) in
    (inr r, set_recorders (<[r := mkRecorder []]> (recorders w)) w).

(** [__enter__] *)
Definition PromptRecorder_enter (self : Ref) : M World Ref :=
  (modify (set_recorder_var (Bound (Some self))) ;;
   ret self)%py.

(** [__exit__]: the slot is cleared; nothing is returned, so an exception
    raised in the block goes on propagating. *)
Definition PromptRecorder_exit (self : Ref) (exc_val : option Exn)
  : M World unit :=
  modify (set_recorder_var (Bound None)).

(** [log] *)
Definition PromptRecorder_log (self : Ref) (prompt response : string)
  : M World unit :=
  modify (fun w =>
    set_recorders
      (alter (fun r => mkRecorder
                (prompts_and_responses r ++ [mkEntry prompt response]))
             self (recorders w)) w).

(** [with recorder: body] *)
Definition with_recorder {S A : Type} (recorder : Ref)
    (body : M (S * World) A) : M (S * World) A :=
  fun s =>
    let '(_, s1) := liftW (PromptRecorder_enter recorder) s in
    match body s1 with
    | (inr a, s2) =>
        let '(_, s3) := liftW (PromptRecorder_exit recorder None) s2 in
        (inr a, s3)
    | (inl e, s2) =>
        let '(_, s3) := liftW (PromptRecorder_exit recorder (Some e)) s2 in
        (inl e, s3)
    end.

(** [autorecord]: a recorder object is truthy, [None] is not. *)
Definition autorecord (prompt response : string) : M World unit :=
  (prompt_recorder <- gets (fun w => ctx_get (prompt_recorder_var w) None) ;;
   match prompt_recorder with
   | Some r => PromptRecorder_log r prompt response
   | None => ret tt
   end)%py.

(** *** [class QueryBot] ([llamabot/bot/querybot.py]) *)

Record QueryBot : Type := mkQueryBot {
  system_message : string;
  index : option Index;
  doc_paths : option (list PathLike);
  chat : ChatOpenAI;
  chat_history : list Message;
  source_nodes : gmap string (list SourceNode);
  chunk_size : Z;
  chunk_overlap : Z
}.

Definition set_index (i : option Index) (b : QueryBot) : QueryBot :=
  mkQueryBot (system_message b) i (doc_paths b) (chat b) (chat_history b)
             (source_nodes b) (chunk_size b) (chunk_overlap b).

Definition set_chat_history (h : list Message) (b : QueryBot) : QueryBot :=
  mkQueryBot (system_message b) (index b) (doc_paths b) (chat b) h
             (source_nodes b) (chunk_size b) (chunk_overlap b).

Definition set_source_nodes (m : gmap string (list SourceNode))
    (b : QueryBot) : QueryBot :=
  mkQueryBot (system_message b) (index b) (doc_paths b) (chat b)
             (chat_history b) m (chunk_size b) (chunk_overlap b).

Definition self_ {A : Type} (f : QueryBot -> A) : M (QueryBot * World) A :=
  gets (fun s => f (fst s)).

Definition on_self (f : QueryBot -> QueryBot) : M (QueryBot * World) unit :=
  modify (fun s => (f (fst s), snd s)).

(** [index.insert(doc)] on the index object held in the state; on [None]
    the attribute lookup fails. *)
Definition insert_doc (doc : Doc) : M (option Index * World) unit :=
  fun '(oi, w) =>
    match oi with
    | None =>
        (inl (AttributeError "'NoneType' object has no attribute 'insert'"),
         (None, w))
    | Some i =>
        let '(r, i', e) := index_insert i doc (ext w) in
        (r, (Some i',
             mkWorld e (calls w ++ [CallIndexInsert doc]) (logged w)
                     (prompt_recorder_var w) (recorders w)))
    end.

(** [insert_documents_into_index(doc_paths, index, chunk_size,
    chunk_overlap)].  The index object is the first component of the
    state: the function changes it in place and returns that same object. *)
Definition insert_documents_into_index (doc_paths : list PathLike)
    (chunk_size chunk_overlap : Z) : M (option Index * World) unit :=
  for_each doc_paths (fun path =>
    (liftW (logger (InfoInserting path)) ;;
     document <- liftW (invoke (CallMagicLoadDoc path) (magic_load_doc path)) ;;
     docs <- liftW (invoke (CallSplitDocument chunk_size chunk_overlap)
                      (split_document document chunk_size chunk_overlap)) ;;
     for_each docs insert_doc)%py).

Definition anti_hallucination : string :=
  "Do not hallucinate content.
If you cannot answer something, respond by saying that you don't know.
".

(** [QueryBot.__init__] *)
Definition QueryBot_init (system_message : string) (model_name : string)
    (temperature : Temperature) (doc_paths : option (list PathLike))
    (saved_index_path : option PathLike) (chunk_size chunk_overlap : Z)
  : M World QueryBot :=
  let chat := new_chat model_name temperature in
  (* Initialize index or load it from disk. *)
  let index := new_index chat in
  (index <- match saved_index_path with
            | Some p => invoke (CallLoadFromDisk p) (load_from_disk p chat)
            | None => ret index
            end ;;
   (* Update index with new documents. *)
   index <- match doc_paths with
            | Some paths =>
                fun w =>
                  let '(r, (oi, w')) :=
                    insert_documents_into_index paths chunk_size
                      chunk_overlap (Some index, w) in
                  (match r with inr _ => inr oi | inl e => inl e end, w')
            | None =>
                logger WarnNoDocuments ;;
                ret None
            end ;;
   ret (mkQueryBot system_message index doc_paths chat
          [SystemMessage system_message; SystemMessage anti_hallucination]
          ∅ chunk_size chunk_overlap))%py.

Definition context_marker : string :=
  "Here is the context you will be working with:".

Definition query_marker : string :=
  "Based on this context, answer the following query:".

(** Step 2 of [__call__]: the faux message history. *)
Definition faux_chat_history (system_message : string)
    (source_texts : list string) (query : string) : list Message :=
  [SystemMessage system_message]
    ++ [SystemMessage context_marker]
    ++ map SystemMessage source_texts
    ++ [SystemMessage query_marker]
    ++ [HumanMessage query].

Definition not_initialized : Exn :=
  ValueError "You need to provide a document for querybot to index against!".

(** [QueryBot.__call__] *)
Definition QueryBot_call (query : string) (similarity_top_k : Z)
  : M (QueryBot * World) Message :=
  (self_index <- self_ index ;;
   match self_index with
   | None => raise not_initialized
   | Some idx =>
       (* Step 1 *)
       liftW (logger (InfoQuerying similarity_top_k)) ;;
       init_response <-
         liftW (invoke (CallIndexQuery query similarity_top_k)
                       (index_query idx query similarity_top_k)) ;;
       let source_texts := map node_text init_response in
       (* Step 2 *)
       sysmsg <- self_ system_message ;;
       let faux := faux_chat_history sysmsg source_texts query in
       (* Step 3 *)
       model <- self_ chat ;;
       response <- liftW (invoke (CallChat faux) (chat_call model faux)) ;;
       (* Step 4 *)
       on_self (fun b =>
         set_chat_history (chat_history b ++ [HumanMessage query]) b) ;;
       on_self (fun b => set_chat_history (chat_history b ++ [response]) b) ;;
       (* Step 5 *)
       on_self (fun b =>
         set_source_nodes (<[query := init_response]> (source_nodes b)) b) ;;
       liftW (autorecord query (content response)) ;;
       (* Step 6 *)
       ret response
   end)%py.

(** [QueryBot.save] *)
Definition QueryBot_save (path : PathLike) : M (QueryBot * World) unit :=
  let path := Path path in
  (path <- (if negb (String.eqb (suffix path) ".json")
            then fun s => (with_suffix path ".json", s)
            else ret path) ;;
   self_index <- self_ index ;;
   match self_index with
   | None =>
       raise (AttributeError
                "'NoneType' object has no attribute 'save_to_disk'")
   | Some idx =>
       liftW (invoke (CallSaveToDisk path) (save_to_disk idx path))
   end)%py.

(** [QueryBot.insert]: the bot's index object is changed in place, and
    [self.index] names that object before and after. *)
Definition QueryBot_insert (file : PathLike) : M (QueryBot * World) unit :=
  fun '(self, w) =>
    let '(r, (oi, w')) :=
      insert_documents_into_index [file] (chunk_size self)
        (chunk_overlap self) (index self, w) in
    (r, (set_index oi self, w')).

End Program.

(** ** Sequences of calls

    A caller may catch what a call raises and go on, so a sequence of calls
    is run to its end whatever each call returns. *)

Section Sequences.

Context `{C : Collaborators}.

(** The methods of one bot. *)
Inductive Op : Type :=
| OpAnswer (query : string) (similarity_top_k : Z)
| OpInsert (file : PathLike)
| OpSave (path : PathLike).

Definition run_op (o : Op) (s : QueryBot * World) : QueryBot * World :=
  match o with
  | OpAnswer q k => snd (QueryBot_call q k s)
  | OpInsert f => snd (QueryBot_insert f s)
  | OpSave p => snd (QueryBot_save p s)
  end.

Definition run_ops (ops : list Op) (s : QueryBot * World) : QueryBot * World :=
  fold_left (fun s o => run_op o s) ops s.

(** Answer calls on any bots, each bot in whatever state it is in when its
    turn comes; only the world is followed. *)
Fixpoint answer_calls (l : list (QueryBot * string * Z)) (w : World) : World :=
  match l with
  | [] => w
  | (b, q, k) :: l' => answer_calls l' (snd (snd (QueryBot_call q k (b, w))))
  end.

(** *** Outcomes of [QueryBot.__call__] *)

(** The world after the index has been queried: one line logged, one call
    recorded, the outside as the index left it. *)
Definition after_query (q : string) (k : Z) (x : Ext) (w : World) : World :=
  mkWorld x (calls w ++ [CallIndexQuery q k]) (logged w ++ [InfoQuerying k])
          (prompt_recorder_var w) (recorders w).

(** The world after the chat model has been called as well. *)
Definition after_chat (q : string) (k : Z) (msgs : list Message) (x : Ext)
    (w : World) : World :=
  mkWorld x (calls w ++ [CallIndexQuery q k; CallChat msgs])
          (logged w ++ [InfoQuerying k])
          (prompt_recorder_var w) (recorders w).

(** The four ways a run of [__call__] can go: no index, the index query
    raises, the chat model raises, or the answer is returned. *)
Inductive CallCase (b : QueryBot) (q : string) (k : Z) (w : World)
  : Result Message -> QueryBot -> World -> Prop :=
| case_no_index :
    index b = None ->
    CallCase b q k w (inl not_initialized) b w
| case_query_raises idx e x :
    index b = Some idx ->
    index_query idx q k (ext w) = (inl e, x) ->
    CallCase b q k w (inl e) b (after_query q k x w)
| case_chat_raises idx nodes e x1 x2 :
    index b = Some idx ->
    index_query idx q k (ext w) = (inr nodes, x1) ->
    chat_call (chat b)
      (faux_chat_history (system_message b) (map node_text nodes) q) x1
      = (inl e, x2) ->
    CallCase b q k w (inl e) b
      (after_chat q k
         (faux_chat_history (system_message b) (map node_text nodes) q) x2 w)
| case_returns idx nodes resp x1 x2 :
    index b = Some idx ->
    index_query idx q k (ext w) = (inr nodes, x1) ->
    chat_call (chat b)
      (faux_chat_history (system_message b) (map node_text nodes) q) x1
      = (inr resp, x2) ->
    CallCase b q k w (inr resp)
      (set_source_nodes (<[q := nodes]> (source_nodes b))
         (set_chat_history (chat_history b ++ [HumanMessage q; resp]) b))
      (snd (autorecord q (content resp)
              (after_chat q k
                 (faux_chat_history (system_message b) (map node_text nodes) q)
                 x2 w))).

(** The messages of the faux history that carry the injected context:
    all of it but the closing human query. *)
Definition context_block (system_message : string)
    (source_texts : list string) : list Message :=
  [SystemMessage system_message; SystemMessage context_marker]
    ++ map SystemMessage source_texts
    ++ [SystemMessage query_marker].

(** The calls to collaborators recorded between world [w] and a later
    world [w']. *)
Definition calls_made (w w' : World) : list Call :=
  drop (length (calls w)) (calls w').

End Sequences.

(** ** A concrete set of collaborators

    Small enough to run: an index is the list of its chunks and answers a
    query with its first [k] chunks, the disk maps a path to the index saved
    there, the chat model repeats the query it was asked.  A negative [k]
    makes the index raise, an empty query makes the chat model raise. *)

Module Toy.

Definition toy_load (p : PathLike) (_ : unit) (d : gmap string (list string))
  : Result (list string) * gmap string (list string) :=
  match d !! to_str (Path p) with
  | Some i => (inr i, d)
  | None => (inl (OtherError "FileNotFoundError" (to_str (Path p))), d)
  end.

Definition toy_save (i : list string) (p : PurePath) (d : gmap string (list string))
  : Result unit * gmap string (list string) :=
  (inr tt, <[to_str p := i]> d).

Definition toy_insert (i : list string) (doc : string)
    (d : gmap string (list string))
  : Result unit * list string * gmap string (list string) :=
  (inr tt, i ++ [doc], d).

Definition toy_query (i : list string) (q : string) (k : Z)
    (d : gmap string (list string))
  : Result (list string) * gmap string (list string) :=
  if (k <? 0)%Z then (inl (OtherError "IndexError" "negative top_k"), d)
  else (inr (take (Z.to_nat k) i), d).

Definition toy_model (_ : unit) (msgs : list Message)
    (d : gmap string (list string))
  : Result Message * gmap string (list string) :=
  match List.last msgs (HumanMessage "") with
  | mkMessage _ EmptyString => (inl (OtherError "APIError" "empty query"), d)
  | mkMessage _ q => (inr (AIMessage ("You asked: " +:+ q)), d)
  end.

(** A document is the text found at its path; it is one chunk. *)
Definition toy_load_doc (p : PathLike) (d : gmap string (list string))
  : Result string * gmap string (list string) :=
  (inr (to_str (Path p)), d).

Definition toy_split (doc : string) (chunk_size chunk_overlap : Z)
    (d : gmap string (list string))
  : Result (list string) * gmap string (list string) :=
  (inr [doc], d).

#[export] Instance collaborators : Collaborators := {|
  Ext := gmap string (list string);
  Index := list string;
  Document := string;
  Doc := string;
  SourceNode := string;
  node_text := fun s => s;
  Temperature := unit;
  ChatOpenAI := unit;
  new_chat := fun _ _ => tt;
  new_index := fun _ => [];
  load_from_disk := toy_load;
  save_to_disk := toy_save;
  index_insert := toy_insert;
  index_query := toy_query;
  chat_call := toy_model;
  magic_load_doc := toy_load_doc;
  split_document := toy_split
|}.

(** The default temperature, [0.0]. *)
Definition zero : @Temperature collaborators := tt.

Definition librarian : string := "You are a helpful librarian".
Definition freedonia : string := "The capital of Freedonia is Fredonia City.".
Definition question : string := "What is the capital of Freedonia?".
Definition answer : Message :=
  AIMessage "You asked: What is the capital of Freedonia?".

(** Nothing on disk, nothing recorded, no recorder object. *)
Definition world0 : World := mkWorld (∅ : gmap string (list string)) [] [] Unset ∅.

(** A world whose disk holds an index saved at [index.json]. *)
Definition world_saved : World :=
  mkWorld ({["index.json" := [freedonia]]} : gmap string (list string))
          [] [] Unset ∅.

(** A bot that holds an index with one chunk. *)
Definition bot1 : QueryBot :=
  mkQueryBot librarian (Some [freedonia]) (Some [PStr "freedonia.txt"]) tt
    [SystemMessage librarian; SystemMessage anti_hallucination] ∅ 2000 0.

(** The same bot without an index. *)
Definition bot0 : QueryBot :=
  mkQueryBot librarian None None tt
    [SystemMessage librarian; SystemMessage anti_hallucination] ∅ 2000 0.

(** A world in which recorder object [0] exists and is the active one. *)
Definition world_rec : World :=
  mkWorld (∅ : gmap string (list string)) [] [] (Bound (Some 0))
          {[0 := mkRecorder []]}.

End Toy.

(** ** More of the program

    The rest of [llamabot/recorder.py] that can be told without the panel
    widgets, the data frames and the database: what [PromptRecorder.save]
    writes, the state the two buttons of [PromptRecorder.panel] work on,
    and [get_object_name]. *)

Definition IndexError : Exn := OtherError "IndexError" "list index out of range".

(** [l[i]] on a Python list: a negative index counts from the end. *)
Definition getitem {A : Type} (l : list A) (i : Z) : Result A :=
  let n := Z.of_nat (length l) in
  let j := if (i <? 0)%Z then (i + n)%Z else i in
  if ((0 <=? j) && (j <? n))%Z then
    match l !! Z.to_nat j with
    | Some x => inr x
    | None => inl IndexError
    end
  else inl IndexError.

(** Run a computation that has no state of its own. *)
Definition pure_result {S A : Type} (r : Result A) : M S A := fun s => (r, s).

Module recorder_file.

(** The files, each known by the text of its path, with their content. *)
Abbreviation Files := (gmap string string) (only parsing).

Definition newline : string := String "010"%char EmptyString.

(** [f"**{prompt}**\n\n{response}\n\n"] *)
Definition block (e : RecorderEntry) : string :=
  "**" +:+ prompt e +:+ "**" +:+ newline +:+ newline
       +:+ response e +:+ newline +:+ newline.

Section Save.

(** What the file system does is not the program's: [path.open("w+")] may
    raise (no such directory, no permission), and so may [f.write(s)] (text
    that cannot be encoded, a full disk) and the closing of the file at the
    end of the [with] block.  For a write or a close that raises, the
    content the file is left with is given along with the exception. *)
Variable open_error : gmap string string -> PurePath -> option Exn.
Variable write_error
  : gmap string string -> string -> string -> option (Exn * string).
Variable close_error : gmap string string -> string -> option (Exn * string).

(** [path.open("w+")]: the file is created, or emptied if it is there. *)
Definition open_w (path : PurePath) : M (gmap string string) string :=
  fun fs =>
    match open_error fs path with
    | Some e => (inl e, fs)
    | None => (inr (to_str path), <[to_str path := EmptyString]> fs)
    end.

(** [f.write(s)] on the handle of the file called [name], opened by this
    program alone: the text goes after what the handle wrote before. *)
Definition f_write (name s : string) : M (gmap string string) unit :=
  fun fs =>
    match write_error fs name s with
    | Some (e, kept) => (inl e, <[name := kept]> fs)
    | None =>
        (inr tt, <[name := default EmptyString (fs !! name) +:+ s]> fs)
    end.

(** [f.close()] *)
Definition f_close (name : string) : M (gmap string string) unit :=
  fun fs =>
    match close_error fs name with
    | Some (e, kept) => (inl e, <[name := kept]> fs)
    | None => (inr tt, fs)
    end.

(** [with path.open("w+") as f: body]: the file is closed whether the body
    returns or raises; what the closing raises is what propagates. *)
Definition with_open (path : PurePath)
    (body : string -> M (gmap string string) unit)
  : M (gmap string string) unit :=
  fun fs =>
    match open_w path fs with
    | (inl e, fs1) => (inl e, fs1)
    | (inr f, fs1) =>
        let '(r, fs2) := body f fs1 in
        match f_close f fs2 with
        | (inl e, fs3) => (inl e, fs3)
        | (inr _, fs3) => (r, fs3)
        end
    end.

(** The writes of the blocks of [es] to the file [name] never raise. *)
Definition writable (name : string) (es : list RecorderEntry) : Prop :=
  Forall (fun e => forall fs : gmap string string,
            write_error fs name (block e) = None) es.

(** [PromptRecorder.save] *)
Definition PromptRecorder_save (self : PromptRecorder) (path : PathLike)
  : M (gmap string string) unit :=
  let path := Path path in
  with_open path (fun f =>
    for_each (prompts_and_responses self) (fun prompt_and_response =>
      f_write f (block prompt_and_response))).

End Save.

(** The text of a whole file: the blocks one after the other. *)
Definition blocks (es : list RecorderEntry) : string :=
  foldr (fun e rest => block e +:+ rest) EmptyString es.

End recorder_file.

Module recorder_panel.

(** What the callbacks of [panel] read and write: the module-level
    [index], shared by every panel, and the text of the two Markdown panes
    of one panel. *)
Record Panes : Type := mkPanes {
  prompt_display : string;
  response_display : string
}.

(** [PromptRecorder.panel], as far as its state goes: [index] is set to 0
    and the panes show the entry at [index]. *)
Definition panel (self : PromptRecorder) : M Z Panes :=
  (modify (fun _ => 0%Z) ;;
   index <- gets (fun i => i) ;;
   e1 <- pure_result (getitem (prompts_and_responses self) index) ;;
   e2 <- pure_result (getitem (prompts_and_responses self) index) ;;
   ret (mkPanes (prompt e1) (response e2)))%py.

(** [update_objects(index)] *)
Definition update_objects (self : PromptRecorder) (index : Z) : M Panes unit :=
  (e1 <- pure_result (getitem (prompts_and_responses self) index) ;;
   modify (fun p => mkPanes (prompt e1) (response_display p)) ;;
   e2 <- pure_result (getitem (prompts_and_responses self) index) ;;
   modify (fun p => mkPanes (prompt_display p) (response e2)))%py.

(** The state of a click: the global [index] and the panes of the panel
    the button belongs to.  [self] is the recorder as it is at the click. *)
Definition on_index {A : Type} (m : M Z A) : M (Z * Panes) A :=
  fun '(i, p) => let '(r, i') := m i in (r, (i', p)).

Definition on_panes {A : Type} (m : M Panes A) : M (Z * Panes) A :=
  fun '(i, p) => let '(r, p') := m p in (r, (i, p')).

Definition len (self : PromptRecorder) : Z :=
  Z.of_nat (length (prompts_and_responses self)).

(** [next_button_callback(event)] *)
Definition next_button_callback (self : PromptRecorder) : M (Z * Panes) unit :=
  (on_index (modify (fun index => (index + 1)%Z)) ;;
   index <- on_index (gets (fun i => i)) ;;
   (if (index >? len self - 1)%Z
    then on_index (modify (fun _ => (len self - 1)%Z))
    else ret tt) ;;
   index <- on_index (gets (fun i => i)) ;;
   on_panes (update_objects self index))%py.

(** [prev_button_callback(event)] *)
Definition prev_button_callback (self : PromptRecorder) : M (Z * Panes) unit :=
  (on_index (modify (fun index => (index - 1)%Z)) ;;
   index <- on_index (gets (fun i => i)) ;;
   (if (index <? 0)%Z
    then on_index (modify (fun _ => 0%Z))
    else ret tt) ;;
   index <- on_index (gets (fun i => i)) ;;
   on_panes (update_objects self index))%py.

(** [n] clicks on one button, the recorder being the same at each. *)
Fixpoint clicks (n : nat) (callback : M (Z * Panes) unit) (s : Z * Panes)
  : Z * Panes :=
  match n with
  | O => s
  | S n' => clicks n' callback (snd (callback s))
  end.

End recorder_panel.

(** [get_object_name]: [globals] is the module's namespace in the order of
    its dictionary, each name with the identity of the object it is bound
    to; the first name bound to [obj] is returned. *)
Fixpoint get_object_name (globals : list (string * nat)) (obj : nat)
  : option string :=
  match globals with
  | [] => None
  | (name, value) :: rest =>
      if Nat.eqb value obj then Some name else get_object_name rest obj
  end.

Section MoreSequences.

Context `{C : Collaborators}.

(** What a sequence of answer calls gave back to its callers, as the
    recorder would write it: one entry per call that returned. *)
Fixpoint answers_returned (l : list (QueryBot * string * Z)) (w : World)
  : list RecorderEntry :=
  match l with
  | [] => []
  | (b, q, k) :: l' =>
      match QueryBot_call q k (b, w) with
      | (inr resp, (_, w')) =>
          mkEntry q (content resp) :: answers_returned l' w'
      | (inl _, (_, w')) => answers_returned l' w'
      end
  end.

(** The queries of the answer calls of a sequence, in order. *)
Definition queries (ops : list Op) : list string :=
  omap (fun o => match o with OpAnswer q _ => Some q | _ => None end) ops.

(** One round of the loop of [insert_documents_into_index]. *)
Definition insert_document (chunk_size chunk_overlap : Z) (path : PathLike)
  : M (option Index * World) unit :=
  (liftW (logger (InfoInserting path)) ;;
   document <- liftW (invoke (CallMagicLoadDoc path) (magic_load_doc path)) ;;
   docs <- liftW (invoke (CallSplitDocument chunk_size chunk_overlap)
                    (split_document document chunk_size chunk_overlap)) ;;
   for_each docs insert_doc)%py.

(** The world once a document has been loaded, and once it has been split. *)
Definition after_load (f : PathLike) (x : Ext) (w : World) : World :=
  mkWorld x (calls w ++ [CallMagicLoadDoc f]) (logged w ++ [InfoInserting f])
          (prompt_recorder_var w) (recorders w).

Definition after_split (f : PathLike) (cs co : Z) (x : Ext) (w : World)
  : World :=
  mkWorld x (calls w ++ [CallMagicLoadDoc f; CallSplitDocument cs co])
          (logged w ++ [InfoInserting f])
          (prompt_recorder_var w) (recorders w).

(** [Inserted i x docs i' x']: with the index in state [i] and the outside
    in state [x], [index.insert] returns for each chunk of [docs] in turn
    and leaves the index in state [i'] and the outside in state [x']. *)
Inductive Inserted : Index -> Ext -> list Doc -> Index -> Ext -> Prop :=
| Inserted_nil i x : Inserted i x [] i x
| Inserted_cons i x d docs i1 x1 i' x' :
    index_insert i d x = (inr tt, i1, x1) ->
    Inserted i1 x1 docs i' x' ->
    Inserted i x (d :: docs) i' x'.

(** The world once the chunks [passed] have gone to [index.insert]. *)
Definition after_inserts (f : PathLike) (cs co : Z) (passed : list Doc)
    (x : Ext) (w : World) : World :=
  mkWorld x
    (calls w ++ [CallMagicLoadDoc f; CallSplitDocument cs co]
             ++ map CallIndexInsert passed)
    (logged w ++ [InfoInserting f])
    (prompt_recorder_var w) (recorders w).

(** The turn a call leaves in the history, as its caller sees it: the query
    and the answer returned for an answer call that returned, nothing for
    any other call. *)
Definition turn_returned (o : Op) (s : QueryBot * World)
  : list (string * Message) :=
  match o with
  | OpAnswer q k =>
      match fst (QueryBot_call q k s) with
      | inr resp => [(q, resp)]
      | inl _ => []
      end
  | _ => []
  end.

Fixpoint turns_returned (ops : list Op) (s : QueryBot * World)
  : list (string * Message) :=
  match ops with
  | [] => []
  | o :: ops' => turn_returned o s ++ turns_returned ops' (run_op o s)
  end.

(** A human turn followed by the model's turn. *)
Definition turn (qr : string * Message) : list Message :=
  [HumanMessage (fst qr); snd qr].

End MoreSequences.

(** Concrete data for the runs of this part. *)
Module Runs.

Definition three : PromptRecorder :=
  mkRecorder [mkEntry "q1" "a1"; mkEntry "q2" "a2"; mkEntry "q3" "a3"].

Definition one : PromptRecorder := mkRecorder [mkEntry "q" "a"].

(** The bot that the constructor builds from the given document paths,
    with the collaborators of [Toy]: each path gives one chunk. *)
Definition built (paths : list PathLike) (chunks : list string)
  : @QueryBot Toy.collaborators :=
  @mkQueryBot Toy.collaborators Toy.librarian (Some chunks) (Some paths) tt
    [SystemMessage Toy.librarian; SystemMessage anti_hallucination] ∅ 2000 0.

(** A bot built with the text of the anti-hallucination message as its
    system instruction. *)
Definition cautious : @QueryBot Toy.collaborators :=
  @mkQueryBot Toy.collaborators anti_hallucination (Some ["freedonia.txt"])
    (Some [PStr "freedonia.txt"]) tt
    [SystemMessage anti_hallucination; SystemMessage anti_hallucination]
    ∅ 2000 0.

Definition never_fails (_ : gmap string string) (_ : PurePath) : option Exn :=
  None.

Definition writes (_ : gmap string string) (_ _ : string)
  : option (Exn * string) := None.

Definition closes (_ : gmap string string) (_ : string)
  : option (Exn * string) := None.

(** A file system that cannot encode the text ["a2"]: a write of a block
    with that response raises and leaves the file as it is. *)
Definition ascii_only (fs : gmap string string) (name s : string)
  : option (Exn * string) :=
  if String.eqb s (recorder_file.block (mkEntry "q2" "a2"))
  then Some (OtherError "UnicodeEncodeError" "cannot encode",
             default EmptyString (fs !! name))
  else None.

Definition old_files : gmap string string :=
  {["log.md" := "old text"; "other.md" := "kept"]}.

End Runs.

(** * Properties *)

(** ** [pathlib] on examples *)

Example parse_index_bin : parse "index.bin" = mkPath "" ["index.bin"].
Proof. reflexivity. Qed.

Example parse_collapses : parse "a//./b.json/" = mkPath "" ["a"; "b.json"].
Proof. reflexivity. Qed.

Example parse_roots :
  parse "/" = mkPath "/" [] /\ parse "//a" = mkPath "//" ["a"]
  /\ parse "///a" = mkPath "/" ["a"] /\ parse "" = mkPath "" [].
Proof. repeat split. Qed.

Example suffix_examples :
  suffix (parse "a/b.tar.gz") = ".gz" /\ suffix (parse ".json") = ""
  /\ suffix (parse "a.") = "" /\ suffix (parse "..json") = ".json"
  /\ suffix (parse "index") = "".
Proof. repeat split. Qed.

Example with_suffix_examples :
  with_suffix (parse "index.bin") ".json" = inr (parse "index.json")
  /\ with_suffix (parse "a/b.tar.gz") ".json" = inr (parse "a/b.tar.json")
  /\ with_suffix (parse ".json") ".json" = inr (parse ".json.json")
  /\ with_suffix (parse "a.") ".json" = inr (parse "a..json")
  /\ with_suffix (parse "..") ".json" = inr (mkPath "" ["...json"]).
Proof. repeat split. Qed.

(** ** Facts about [str] and [pathlib] *)

Lemma append_cons (a : ascii) (s t : string) :
  String a s +:+ t = String a (s +:+ t).
Proof. reflexivity. Qed.

Lemma append_nil_r (s : string) : s +:+ EmptyString = s.
Proof.
  induction s as [|a s IH]; [reflexivity|].
  rewrite append_cons, IH. reflexivity.
Qed.

Lemma length_append (s t : string) :
  String.length (s +:+ t) = String.length s + String.length t.
Proof. induction s as [|a s IH]; simpl; [reflexivity|]. rewrite IH. reflexivity. Qed.

Lemma from_append (s t : string) : str.from (String.length s) (s +:+ t) = t.
Proof. induction s as [|a s IH]; simpl; [destruct t; reflexivity|exact IH]. Qed.

Lemma upto_from (n : nat) (s : string) : str.upto n s +:+ str.from n s = s.
Proof.
  revert s. induction n as [|n IH]; intros [|a s]; simpl; try reflexivity.
  rewrite append_cons, IH. reflexivity.
Qed.

Lemma length_from (n : nat) (s : string) :
  String.length (str.from n s) = String.length s - n.
Proof.
  revert s. induction n as [|n IH]; intros [|a s]; simpl; try reflexivity.
  apply IH.
Qed.

(** The last dot of [s ++ ".json"] is the one of [".json"]. *)
Lemma rfind_from_json (s : string) (i last : Z) :
  str.rfind_from dot (s +:+ ".json") i last = (i + str.len s)%Z.
Proof.
  revert i last. induction s as [|a s IH]; intros i last.
  - simpl. unfold str.len. simpl. lia.
  - simpl. rewrite IH. unfold str.len. simpl String.length.
    rewrite Nat2Z.inj_succ. lia.
Qed.

Lemma suffix_of_name_json (s : string) :
  s <> EmptyString -> suffix_of_name (s +:+ ".json") = ".json".
Proof.
  intros Hs. unfold suffix_of_name, str.rfind. rewrite rfind_from_json.
  unfold str.len. rewrite length_append. simpl String.length.
  assert (0 < String.length s) by (destruct s; [contradiction|simpl; lia]).
  replace ((0 <? 0 + Z.of_nat (String.length s))%Z) with true
    by (symmetry; apply Z.ltb_lt; lia).
  replace ((0 + Z.of_nat (String.length s)
            <? Z.of_nat (String.length s + 5) - 1)%Z) with true
    by (symmetry; apply Z.ltb_lt; lia).
  simpl andb. cbv iota.
  replace (Z.to_nat (0 + Z.of_nat (String.length s))) with (String.length s)
    by lia.
  apply from_append.
Qed.

(** A name is its stem followed by its suffix; the stem of a name that is
    not empty is not empty. *)
Lemma stem_suffix (p : PurePath) : stem p +:+ suffix p = name p.
Proof.
  unfold stem, suffix, suffix_of_name.
  destruct ((0 <? str.rfind (name p) dot)
            && (str.rfind (name p) dot <? str.len (name p) - 1))%Z.
  - apply upto_from.
  - apply append_nil_r.
Qed.

Lemma stem_nonempty (p : PurePath) :
  name p <> EmptyString -> stem p <> EmptyString.
Proof.
  intros Hn. unfold stem.
  destruct ((0 <? str.rfind (name p) dot)
            && (str.rfind (name p) dot <? str.len (name p) - 1))%Z eqn:Hc;
    [|exact Hn].
  apply andb_prop in Hc. destruct Hc as [H0 H1].
  apply Z.ltb_lt in H0. apply Z.ltb_lt in H1.
  destruct (name p) as [|a s]; [contradiction|].
  destruct (Z.to_nat (str.rfind (String a s) dot)) eqn:Hz; [lia|].
  simpl. discriminate.
Qed.

(** [with_suffix(".json")]: an error for a path with an empty name,
    otherwise the stem followed by [".json"] in place of the name. *)
Lemma with_suffix_json (p : PurePath) :
  with_suffix p ".json"
  = if str.nonempty (name p)
    then inr (mkPath (root p) (removelast (tail p) ++ [stem p +:+ ".json"]))
    else inl (ValueError (repr p +:+ " has an empty name")).
Proof.
  unfold with_suffix.
  change (str.contains sep ".json") with false.
  change (str.nonempty ".json" && negb (str.startswith ".json" dot)
          || String.eqb ".json" ".") with false.
  cbv iota.
  destruct (str.nonempty (name p)) eqn:Hn; simpl negb; cbv iota;
    [|reflexivity].
  do 3 f_equal.
  unfold stem, suffix, suffix_of_name.
  destruct ((0 <? str.rfind (name p) dot)
            && (str.rfind (name p) dot <? str.len (name p) - 1))%Z eqn:Hc.
  - apply andb_prop in Hc. destruct Hc as [H0 H1].
    apply Z.ltb_lt in H0. apply Z.ltb_lt in H1. unfold str.len in H1.
    assert (Hl : String.length
              (str.from (Z.to_nat (str.rfind (name p) dot)) (name p))
            = String.length (name p) - Z.to_nat (str.rfind (name p) dot))
      by apply length_from.
    destruct (str.from (Z.to_nat (str.rfind (name p) dot)) (name p))
      as [|a s] eqn:Hf.
    + simpl in Hl. lia.
    + simpl str.nonempty. simpl negb. cbv iota. rewrite Hl.
      replace (String.length (name p)
               - (String.length (name p)
                  - Z.to_nat (str.rfind (name p) dot)))
        with (Z.to_nat (str.rfind (name p) dot)) by lia.
      reflexivity.
  - reflexivity.
Qed.

Lemma name_snoc (rt : string) (l : list string) (x : string) :
  name (mkPath rt (l ++ [x])) = x.
Proof. unfold name. simpl. apply last_last. Qed.

Lemma suffix_json_name (p : PurePath) :
  suffix p = ".json" -> name p <> EmptyString.
Proof.
  unfold suffix, suffix_of_name. intros H Hn. rewrite Hn in H.
  simpl in H. discriminate.
Qed.

Section Properties.

Context `{C : Collaborators}.

(** ** [QueryBot.__call__], case by case *)

Lemma QueryBot_call_no_index (b : QueryBot) (q : string) (k : Z) (w : World) :
  index b = None ->
  QueryBot_call q k (b, w) = (inl not_initialized, (b, w)).
Proof.
  intros Hi. unfold QueryBot_call, bind, self_, gets. simpl.
  rewrite Hi. reflexivity.
Qed.

Lemma QueryBot_call_query_raises (b : QueryBot) (idx : Index) (q : string)
    (k : Z) (w : World) (e : Exn) (x : Ext) :
  index b = Some idx ->
  index_query idx q k (ext w) = (inl e, x) ->
  QueryBot_call q k (b, w) = (inl e, (b, after_query q k x w)).
Proof.
  intros Hi Hq.
  unfold QueryBot_call, bind, self_, gets, liftW, logger, modify, invoke.
  simpl. rewrite Hi. simpl. rewrite Hq. reflexivity.
Qed.

Lemma QueryBot_call_chat_raises (b : QueryBot) (idx : Index) (q : string)
    (k : Z) (w : World) (nodes : list SourceNode) (e : Exn) (x1 x2 : Ext) :
  index b = Some idx ->
  index_query idx q k (ext w) = (inr nodes, x1) ->
  chat_call (chat b)
    (faux_chat_history (system_message b) (map node_text nodes) q) x1
    = (inl e, x2) ->
  QueryBot_call q k (b, w)
  = (inl e,
     (b, after_chat q k
           (faux_chat_history (system_message b) (map node_text nodes) q)
           x2 w)).
Proof.
  intros Hi Hq Hc.
  unfold QueryBot_call, bind, self_, gets, liftW, logger, modify, invoke.
  simpl. rewrite Hi. simpl. rewrite Hq. simpl. rewrite Hc. simpl.
  unfold after_chat. rewrite <- app_assoc. reflexivity.
Qed.

Lemma QueryBot_call_returns (b : QueryBot) (idx : Index) (q : string)
    (k : Z) (w : World) (nodes : list SourceNode) (resp : Message)
    (x1 x2 : Ext) :
  index b = Some idx ->
  index_query idx q k (ext w) = (inr nodes, x1) ->
  chat_call (chat b)
    (faux_chat_history (system_message b) (map node_text nodes) q) x1
    = (inr resp, x2) ->
  QueryBot_call q k (b, w)
  = (inr resp,
     (set_source_nodes (<[q := nodes]> (source_nodes b))
        (set_chat_history (chat_history b ++ [HumanMessage q; resp]) b),
      snd (autorecord q (content resp)
             (after_chat q k
                (faux_chat_history (system_message b) (map node_text nodes) q)
                x2 w)))).
Proof.
  intros Hi Hq Hc.
  unfold QueryBot_call, bind, self_, gets, liftW, logger, modify, invoke,
    on_self, ret.
  simpl. rewrite Hi. simpl. rewrite Hq. simpl. rewrite Hc. simpl.
  unfold after_chat. rewrite <- !app_assoc. simpl.
  destruct (autorecord _ _ _) as [[e|[]] w'] eqn:Ha; simpl.
  - exfalso. revert Ha. unfold autorecord, bind, gets, PromptRecorder_log,
      modify, ret. simpl.
    destruct (ctx_get _ _); discriminate.
  - unfold set_source_nodes, set_chat_history. simpl. reflexivity.
Qed.

(** Every run of [__call__] is one of the four cases of [CallCase]. *)
Lemma QueryBot_call_cases (b : QueryBot) (q : string) (k : Z) (w : World) :
  CallCase b q k w (fst (QueryBot_call q k (b, w)))
           (fst (snd (QueryBot_call q k (b, w))))
           (snd (snd (QueryBot_call q k (b, w)))).
Proof.
  destruct (index b) as [idx|] eqn:Hi.
  - destruct (index_query idx q k (ext w)) as [[e|nodes] x1] eqn:Hq.
    + rewrite (QueryBot_call_query_raises _ _ _ _ _ _ _ Hi Hq). simpl.
      eapply case_query_raises; eauto.
    + destruct (chat_call (chat b)
        (faux_chat_history (system_message b) (map node_text nodes) q) x1)
        as [[e|resp] x2] eqn:Hc.
      * rewrite (QueryBot_call_chat_raises _ _ _ _ _ _ _ _ _ Hi Hq Hc). simpl.
        eapply case_chat_raises; eauto.
      * rewrite (QueryBot_call_returns _ _ _ _ _ _ _ _ _ Hi Hq Hc). simpl.
        eapply case_returns; eauto.
  - rewrite (QueryBot_call_no_index _ _ _ _ Hi). simpl.
    apply case_no_index; assumption.
Qed.

Lemma QueryBot_call_inv (b b' : QueryBot) (q : string) (k : Z) (w w' : World)
    (r : Result Message) :
  QueryBot_call q k (b, w) = (r, (b', w')) -> CallCase b q k w r b' w'.
Proof.
  intros H. pose proof (QueryBot_call_cases b q k w) as Hc.
  rewrite H in Hc. exact Hc.
Qed.

(** ** [autorecord] *)

Lemma autorecord_inactive (p r : string) (w : World) :
  ctx_get (prompt_recorder_var w) None = None ->
  autorecord p r w = (inr tt, w).
Proof.
  intros H. unfold autorecord, bind, gets, ret. rewrite H. reflexivity.
Qed.

Lemma autorecord_active (p r : string) (w : World) (rec : nat) :
  ctx_get (prompt_recorder_var w) None = Some rec ->
  autorecord p r w
  = (inr tt,
     set_recorders
       (alter (fun x => mkRecorder (prompts_and_responses x ++ [mkEntry p r]))
              rec (recorders w)) w).
Proof.
  intros H. unfold autorecord, bind, gets, PromptRecorder_log, modify.
  rewrite H. reflexivity.
Qed.

Lemma autorecord_frame (p r : string) (w : World) :
  fst (autorecord p r w) = inr tt
  /\ ext (snd (autorecord p r w)) = ext w
  /\ calls (snd (autorecord p r w)) = calls w
  /\ logged (snd (autorecord p r w)) = logged w
  /\ prompt_recorder_var (snd (autorecord p r w)) = prompt_recorder_var w.
Proof.
  destruct (ctx_get (prompt_recorder_var w) None) as [rec|] eqn:H.
  - rewrite (autorecord_active _ _ _ _ H). simpl. auto.
  - rewrite (autorecord_inactive _ _ _ H). simpl. auto.
Qed.

Lemma faux_chat_history_split (sysmsg : string) (texts : list string)
    (q : string) :
  faux_chat_history sysmsg texts q
  = context_block sysmsg texts ++ [HumanMessage q].
Proof.
  unfold faux_chat_history, context_block. simpl.
  rewrite <- app_assoc. reflexivity.
Qed.


(** ** The claims about [__call__] *)


(** C3. With no index configured ([index] is [None]) the answer call raises
    the configuration error at once: the bot (conversation history, query
    record) and the world (no call to any collaborator, nothing logged,
    the recorder slot and every recorder) are exactly as before. *)
Theorem answer_without_index_raises (b : QueryBot) (q : string) (k : Z)
    (w : World) :
  index b = None ->
  fst (QueryBot_call q k (b, w))
  = inl (ValueError
           "You need to provide a document for querybot to index against!")
  /\ snd (QueryBot_call q k (b, w)) = (b, w)
  /\ chat_history (fst (snd (QueryBot_call q k (b, w)))) = chat_history b
  /\ source_nodes (fst (snd (QueryBot_call q k (b, w)))) = source_nodes b
  /\ calls_made w (snd (snd (QueryBot_call q k (b, w)))) = []
  /\ recorders (snd (snd (QueryBot_call q k (b, w)))) = recorders w.
Proof.
  intros Hi. rewrite (QueryBot_call_no_index _ _ _ _ Hi). simpl.
  unfold calls_made. rewrite drop_all. repeat split; reflexivity.
Qed.

(** C4. If the index query or the chat model raises during an answer call,
    that same exception is what the call raises, and the bot is exactly as
    it was before the call: conversation history and query record are
    untouched, and so are the recorder slot and the recorders. *)
Theorem failed_answer_keeps_state (b : QueryBot) (idx : Index) (q : string)
    (k : Z) (w : World) (e : Exn) :
  index b = Some idx ->
  (exists x : Ext, index_query idx q k (ext w) = (inl e, x))
  \/ (exists (nodes : list SourceNode) (x1 x2 : Ext),
        index_query idx q k (ext w) = (inr nodes, x1)
        /\ chat_call (chat b)
             (faux_chat_history (system_message b) (map node_text nodes) q) x1
           = (inl e, x2)) ->
  exists w' : World,
    QueryBot_call q k (b, w) = (inl e, (b, w'))
    /\ chat_history (fst (snd (QueryBot_call q k (b, w)))) = chat_history b
    /\ source_nodes (fst (snd (QueryBot_call q k (b, w)))) = source_nodes b
    /\ recorders w' = recorders w
    /\ prompt_recorder_var w' = prompt_recorder_var w.
Proof.
  intros Hi [[x Hq]|(nodes & x1 & x2 & Hq & Hc)].
  - rewrite (QueryBot_call_query_raises _ _ _ _ _ _ _ Hi Hq).
    eexists. repeat split.
  - rewrite (QueryBot_call_chat_raises _ _ _ _ _ _ _ _ _ Hi Hq Hc).
    eexists. repeat split.
Qed.


(** ** The recorder scope *)

Lemma QueryBot_call_recorder_frame (b : QueryBot) (q : string) (k : Z)
    (w : World) :
  prompt_recorder_var (snd (snd (QueryBot_call q k (b, w))))
  = prompt_recorder_var w
  /\ (ctx_get (prompt_recorder_var w) None = None ->
      recorders (snd (snd (QueryBot_call q k (b, w)))) = recorders w).
Proof.
  destruct (QueryBot_call q k (b, w)) as [r [b' w']] eqn:E.
  apply QueryBot_call_inv in E. simpl.
  inversion E as [Hi|idx e x Hi Hq|idx nodes e x1 x2 Hi Hq Hch
                 |idx nodes resp x1 x2 Hi Hq Hch]; subst.
  - split; [reflexivity|]. intros _. reflexivity.
  - split; [reflexivity|]. intros _. reflexivity.
  - split; [reflexivity|]. intros _. reflexivity.
  - split.
    + destruct (autorecord_frame q (content resp)
        (after_chat q k
           (faux_chat_history (system_message b) (map node_text nodes) q)
           x2 w)) as (_ & _ & _ & _ & Hv).
      rewrite Hv. reflexivity.
    + intros Hn. rewrite autorecord_inactive; [reflexivity|exact Hn].
Qed.


Lemma with_recorder_clears {S A : Type} (rec : nat)
    (body : M (S * World) A) (s : S * World) :
  prompt_recorder_var (snd (snd (with_recorder rec body s))) = Bound None
  /\ fst (with_recorder rec body s)
     = fst (body (fst s, set_recorder_var (Bound (Some rec)) (snd s))).
Proof.
  destruct s as [st w]. unfold with_recorder, liftW, PromptRecorder_enter,
    PromptRecorder_exit, bind, modify, ret. simpl.
  destruct (body _) as [[e|a] [st2 w2]]; simpl; split; reflexivity.
Qed.


(** ** The constructor and the other methods *)

Lemma QueryBot_save_self (a : PathLike) (b : QueryBot) (w : World) :
  fst (snd (QueryBot_save a (b, w))) = b.
Proof.
  unfold QueryBot_save, bind, self_, gets, raise, ret, liftW, invoke.
  destruct (negb (String.eqb (suffix (Path a)) ".json")).
  - destruct (with_suffix (Path a) ".json") as [e|p]; simpl; [reflexivity|].
    destruct (index b) as [idx|]; simpl; [|reflexivity].
    destruct (save_to_disk idx p (ext w)) as [r x]. reflexivity.
  - simpl. destruct (index b) as [idx|]; simpl; [|reflexivity].
    destruct (save_to_disk idx (Path a) (ext w)) as [r x]. reflexivity.
Qed.

Lemma QueryBot_insert_self (f : PathLike) (b : QueryBot) (w : World) :
  exists oi : option Index,
    fst (snd (QueryBot_insert f (b, w))) = set_index oi b.
Proof.
  unfold QueryBot_insert.
  destruct (insert_documents_into_index [f] (chunk_size b) (chunk_overlap b)
              (index b, w)) as [r [oi w']].
  exists oi. reflexivity.
Qed.

(** Every method keeps the system instruction and only ever adds to the end
    of the conversation history. *)
Lemma run_op_history (o : Op) (s : QueryBot * World) :
  system_message (fst (run_op o s)) = system_message (fst s)
  /\ exists l : list Message,
       chat_history (fst (run_op o s)) = chat_history (fst s) ++ l.
Proof.
  destruct s as [b w]. destruct o as [q k|f|a]; unfold run_op.
  - destruct (QueryBot_call q k (b, w)) as [r [b' w']] eqn:E.
    apply QueryBot_call_inv in E. simpl.
    inversion E; subst; simpl;
      (split; [reflexivity|]);
      first [ exists []; rewrite app_nil_r; reflexivity
            | eexists; reflexivity ].
  - destruct (QueryBot_insert_self f b w) as [oi ->]. simpl.
    split; [reflexivity|]. exists []. rewrite app_nil_r. reflexivity.
  - rewrite QueryBot_save_self.
    split; [reflexivity|]. exists []. rewrite app_nil_r. reflexivity.
Qed.

Lemma run_ops_history (ops : list Op) (s : QueryBot * World) :
  system_message (fst (run_ops ops s)) = system_message (fst s)
  /\ exists l : list Message,
       chat_history (fst (run_ops ops s)) = chat_history (fst s) ++ l.
Proof.
  revert s. unfold run_ops.
  induction ops as [|o ops IH]; intros s; simpl.
  - split; [reflexivity|]. exists []. rewrite app_nil_r. reflexivity.
  - destruct (IH (run_op o s)) as [Hs [l Hl]].
    destruct (run_op_history o s) as [Hs' [l' Hl']].
    split; [congruence|].
    exists (l' ++ l). rewrite Hl, Hl', <- app_assoc. reflexivity.
Qed.

Lemma QueryBot_init_returns (sysmsg model : string) (temp : Temperature)
    (dps : option (list PathLike)) (sip : option PathLike) (cs co : Z)
    (w w1 : World) (b : QueryBot) :
  QueryBot_init sysmsg model temp dps sip cs co w = (inr b, w1) ->
  system_message b = sysmsg
  /\ chat_history b
     = [SystemMessage sysmsg; SystemMessage anti_hallucination]
  /\ source_nodes b = ∅
  /\ (dps = None -> index b = None).
Proof.
  unfold QueryBot_init, bind, ret, logger, modify.
  destruct (match sip with
            | Some p => invoke (CallLoadFromDisk p)
                          (load_from_disk p (new_chat model temp))
            | None => fun s => (inr (new_index (new_chat model temp)), s)
            end w) as [[e|i] w0]; [discriminate|].
  destruct dps as [paths|].
  - destruct (insert_documents_into_index paths cs co (Some i, w0))
      as [[e|[]] [oi w2]]; [discriminate|].
    intros H. injection H as <- _. simpl. repeat split. discriminate.
  - intros H. injection H as <- _. simpl. repeat split.
Qed.

(** C8. The two system messages put at the head of the conversation history
    by the constructor stay there: after any sequence of answer, insert and
    save calls, whatever each of them returned or raised, the first two
    entries of the history are those two messages. *)
Theorem history_prefix_is_fixed (sysmsg model : string) (temp : Temperature)
    (dps : option (list PathLike)) (sip : option PathLike) (cs co : Z)
    (w w1 : World) (b : QueryBot) (ops : list Op) :
  QueryBot_init sysmsg model temp dps sip cs co w = (inr b, w1) ->
  take 2 (chat_history (fst (run_ops ops (b, w1))))
  = [SystemMessage sysmsg;
     SystemMessage "Do not hallucinate content.
If you cannot answer something, respond by saying that you don't know.
"]
  /\ exists l : list Message,
       chat_history (fst (run_ops ops (b, w1))) = chat_history b ++ l.
Proof.
  intros H. apply QueryBot_init_returns in H.
  destruct H as (_ & Hh & _).
  destruct (run_ops_history ops (b, w1)) as [_ [l Hl]]. simpl in Hl.
  split; [|exists l; exact Hl].
  rewrite Hl, Hh. reflexivity.
Qed.

(** C1 (as the code has it). Constructing the bot with a saved index path
    and no document paths loads the index and then drops it: the bot is
    built with [index] set to [None], and every answer call on it raises the
    configuration error. *)
Theorem saved_index_is_dropped (sysmsg model : string) (temp : Temperature)
    (p : PathLike) (cs co : Z) (w : World) (i : Index) (x : Ext) :
  load_from_disk p (new_chat model temp) (ext w) = (inr i, x) ->
  exists (b : QueryBot) (w1 : World),
    QueryBot_init sysmsg model temp None (Some p) cs co w = (inr b, w1)
    /\ calls_made w w1 = [CallLoadFromDisk p]
    /\ index b = None
    /\ forall (q : string) (k : Z) (w2 : World),
         QueryBot_call q k (b, w2)
         = (inl (ValueError
              "You need to provide a document for querybot to index against!"),
            (b, w2)).
Proof.
  intros Hl.
  unfold QueryBot_init, bind, ret, logger, modify, invoke. rewrite Hl. simpl.
  eexists. eexists. split; [reflexivity|]. split.
  - unfold calls_made. simpl. rewrite drop_app_length. reflexivity.
  - split; [reflexivity|]. intros q k w2.
    apply QueryBot_call_no_index. reflexivity.
Qed.

(** C10 (amended). In every answer call that reaches the chat model, the
    messages the model is sent are built from the bot's system instruction,
    the chunks the index returned and the query, and from nothing in the
    conversation history.  A message equal to the anti-hallucination
    message that the constructor puts second in the history is among them
    exactly when the system instruction or a retrieved chunk has that very
    text; otherwise the model never sees it. *)
Theorem model_never_sees_second_instruction (b : QueryBot) (q : string)
    (k : Z) (w : World) (msgs : list Message) :
  In (CallChat msgs)
     (calls_made w (snd (snd (QueryBot_call q k (b, w))))) ->
  exists (idx : Index) (nodes : list SourceNode) (x : Ext),
    index b = Some idx
    /\ index_query idx q k (ext w) = (inr nodes, x)
    /\ msgs = faux_chat_history (system_message b) (map node_text nodes) q
    /\ (system_message b <> anti_hallucination ->
        Forall (fun n => node_text n <> anti_hallucination) nodes ->
        ~ In (SystemMessage anti_hallucination) msgs)
    /\ (system_message b = anti_hallucination
        \/ Exists (fun n => node_text n = anti_hallucination) nodes ->
        In (SystemMessage anti_hallucination) msgs).
Proof.
  destruct (QueryBot_call q k (b, w)) as [r [b' w']] eqn:E.
  apply QueryBot_call_inv in E. simpl. unfold calls_made.
  assert (Hconv : forall nodes : list SourceNode,
    system_message b = anti_hallucination
    \/ Exists (fun n => node_text n = anti_hallucination) nodes ->
    In (SystemMessage anti_hallucination)
       (faux_chat_history (system_message b) (map node_text nodes) q)).
  { intros nodes [Hs|Hn]; unfold faux_chat_history; simpl.
    - left. rewrite Hs. reflexivity.
    - right. right.
      apply (in_or_app (map SystemMessage (map node_text nodes))). left.
      apply Exists_exists in Hn. destruct Hn as [n [Hn Ht]].
      apply in_map_iff. exists (node_text n). split; [rewrite Ht; reflexivity|].
      apply in_map_iff. exists n. split; [reflexivity|].
      apply list_elem_of_In. exact Hn. }
  assert (Hfaux : forall nodes : list SourceNode,
    system_message b <> anti_hallucination ->
    Forall (fun n => node_text n <> anti_hallucination) nodes ->
    ~ In (SystemMessage anti_hallucination)
         (faux_chat_history (system_message b) (map node_text nodes) q)).
  { intros nodes Hs Hn Hin. rewrite faux_chat_history_split in Hin.
    apply in_app_or in Hin. destruct Hin as [Hin|[Hin|[]]]; [|discriminate].
    unfold context_block in Hin. simpl in Hin.
    destruct Hin as [Hin|[Hin|Hin]].
    - injection Hin as Hin. contradiction.
    - discriminate.
    - apply in_app_or in Hin. destruct Hin as [Hin|[Hin|[]]]; [|discriminate].
      apply in_map_iff in Hin. destruct Hin as [t [Ht Hin]].
      injection Ht as ->.
      apply in_map_iff in Hin. destruct Hin as [n [Hn' Hin]].
      rewrite Forall_forall in Hn. apply (Hn n); [|exact Hn'].
      apply list_elem_of_In. exact Hin. }
  inversion E as [Hi|idx e x Hi Hq|idx nodes e x1 x2 Hi Hq Hch
                 |idx nodes resp x1 x2 Hi Hq Hch]; subst.
  - rewrite drop_all. intros [].
  - simpl. rewrite drop_app_length. intros [Hin|[]]. discriminate.
  - simpl. rewrite drop_app_length. intros [Hin|[Hin|[]]]; [discriminate|].
    injection Hin as <-. exists idx, nodes, x1.
    repeat split; try assumption; [apply Hfaux|apply Hconv].
  - destruct (autorecord_frame q (content resp)
      (after_chat q k
         (faux_chat_history (system_message b) (map node_text nodes) q)
         x2 w)) as (_ & _ & Hcalls & _).
    rewrite Hcalls. simpl. rewrite drop_app_length.
    intros [Hin|[Hin|[]]]; [discriminate|].
    injection Hin as <-. exists idx, nodes, x1.
    repeat split; try assumption; [apply Hfaux|apply Hconv].
Qed.

(** ** [QueryBot.save] *)

Lemma QueryBot_save_eq (a : PathLike) (b : QueryBot) (w : World) :
  QueryBot_save a (b, w)
  = match (if String.eqb (suffix (Path a)) ".json" then inr (Path a)
           else with_suffix (Path a) ".json") with
    | inl e => (inl e, (b, w))
    | inr p =>
        match index b with
        | Some idx =>
            liftW (invoke (CallSaveToDisk p) (save_to_disk idx p)) (b, w)
        | None =>
            (inl (AttributeError
                    "'NoneType' object has no attribute 'save_to_disk'"),
             (b, w))
        end
    end.
Proof.
  unfold QueryBot_save, bind, self_, gets, raise, ret.
  destruct (String.eqb (suffix (Path a)) ".json"); simpl.
  - destruct (index b); reflexivity.
  - destruct (with_suffix (Path a) ".json"); simpl; [reflexivity|].
    destruct (index b); reflexivity.
Qed.

Lemma nonempty_true (s : string) : s <> EmptyString -> str.nonempty s = true.
Proof. destruct s; [contradiction|reflexivity]. Qed.

(** C7 (amended). [save] on a bot that holds an index: a path whose suffix
    is [".json"] is handed to the index as it is; any other path with a
    non-empty name is handed over with its name changed to its stem
    followed by [".json"] (the old suffix replaced, or [".json"] added when
    there was none), everything before the name kept, so that the new
    suffix is [".json"]; for a path with an empty name [save] raises
    [ValueError] and nothing is persisted. *)
Theorem save_normalizes_suffix (b : QueryBot) (idx : Index) (a : PathLike)
    (w : World) :
  index b = Some idx ->
  (suffix (Path a) = ".json" ->
   QueryBot_save a (b, w)
   = liftW (invoke (CallSaveToDisk (Path a)) (save_to_disk idx (Path a)))
           (b, w))
  /\ (suffix (Path a) <> ".json" -> name (Path a) <> EmptyString ->
      exists p' : PurePath,
        QueryBot_save a (b, w)
        = liftW (invoke (CallSaveToDisk p') (save_to_disk idx p')) (b, w)
        /\ suffix p' = ".json"
        /\ name p' = stem (Path a) +:+ ".json"
        /\ root p' = root (Path a)
        /\ removelast (tail p') = removelast (tail (Path a)))
  /\ (name (Path a) = EmptyString ->
      QueryBot_save a (b, w)
      = (inl (ValueError (repr (Path a) +:+ " has an empty name")), (b, w))).
Proof.
  intros Hi. rewrite QueryBot_save_eq, Hi. repeat split.
  - intros Hs. apply String.eqb_eq in Hs. rewrite Hs. reflexivity.
  - intros Hs Hn. apply String.eqb_neq in Hs. rewrite Hs.
    rewrite with_suffix_json, (nonempty_true _ Hn).
    eexists. split; [reflexivity|]. repeat split.
    + unfold suffix. rewrite name_snoc. apply suffix_of_name_json.
      apply stem_nonempty. exact Hn.
    + apply name_snoc.
    + simpl. apply removelast_last.
  - intros Hn.
    assert (Hs : String.eqb (suffix (Path a)) ".json" = false).
    { apply String.eqb_neq. intros Hs. apply suffix_json_name in Hs.
      contradiction. }
    rewrite Hs, with_suffix_json, Hn. reflexivity.
Qed.

(** C9 (amended). [save] on a bot whose index is [None] always raises, never
    the configuration error of the answer call, and changes nothing: no call
    reaches a collaborator, so nothing is persisted.  For a path with a
    non-empty name the exception is the [AttributeError] of the lookup of
    [save_to_disk] on [None]; for a path with an empty name [with_suffix]
    raises its [ValueError] first. *)
Theorem save_without_index (b : QueryBot) (a : PathLike) (w : World) :
  index b = None ->
  snd (QueryBot_save a (b, w)) = (b, w)
  /\ (exists e : Exn,
        fst (QueryBot_save a (b, w)) = inl e /\ e <> not_initialized)
  /\ (name (Path a) <> EmptyString ->
      fst (QueryBot_save a (b, w))
      = inl (AttributeError
               "'NoneType' object has no attribute 'save_to_disk'"))
  /\ (name (Path a) = EmptyString ->
      fst (QueryBot_save a (b, w))
      = inl (ValueError (repr (Path a) +:+ " has an empty name"))).
Proof.
  intros Hi. rewrite QueryBot_save_eq, Hi.
  destruct (String.eqb (suffix (Path a)) ".json") eqn:Hs.
  - apply String.eqb_eq in Hs. apply suffix_json_name in Hs.
    repeat split.
    + eexists. split; [reflexivity|]. discriminate.
    + intros Hn. contradiction.
  - rewrite with_suffix_json.
    destruct (name (Path a)) as [|c s] eqn:Hn; simpl str.nonempty; cbv iota.
    + repeat split.
      * eexists. split; [reflexivity|]. unfold repr, not_initialized.
        intros H. injection H as H. discriminate.
      * intros H. contradiction.
    + repeat split.
      * eexists. split; [reflexivity|]. discriminate.
      * intros H. discriminate.
Qed.

End Properties.

(** * More properties *)

Section MoreProperties.

Context `{C : Collaborators}.

(** ** The query record *)

(** X1. A successful answer call files the nodes it retrieved under its
    query, replacing what was filed there, and leaves the other queries of
    the record, the index, the system instruction and the chat model of the
    bot as they were. *)
Theorem query_record_last_write_wins (b b' : QueryBot) (q : string) (k : Z)
    (w w' : World) (resp : Message) :
  QueryBot_call q k (b, w) = (inr resp, (b', w')) ->
  exists (idx : Index) (nodes : list SourceNode) (x : Ext),
    index b = Some idx
    /\ index_query idx q k (ext w) = (inr nodes, x)
    /\ source_nodes b' !! q = Some nodes
    /\ (forall q' : string,
         q' <> q -> source_nodes b' !! q' = source_nodes b !! q')
    /\ index b' = index b
    /\ system_message b' = system_message b
    /\ chat b' = chat b.
Proof.
  intros H. apply QueryBot_call_inv in H.
  inversion H as [| | |idx nodes resp' x1 x2 Hi Hq Hc]; subst.
  exists idx, nodes, x1. simpl.
  split; [exact Hi|]. split; [exact Hq|].
  split; [apply lookup_insert_eq|].
  split; [|repeat split].
  intros q' Hne. apply lookup_insert_ne. congruence.
Qed.

(** ** A bot without an index *)

Lemma set_index_same (b : QueryBot) : set_index (index b) b = b.
Proof. destruct b. reflexivity. Qed.

Lemma insert_docs_keep_none (docs : list Doc) (w : World) :
  exists w' : World,
    snd (for_each docs insert_doc (None, w)) = (None, w')
    /\ calls w' = calls w /\ logged w' = logged w /\ ext w' = ext w
    /\ prompt_recorder_var w' = prompt_recorder_var w
    /\ recorders w' = recorders w.
Proof.
  destruct docs as [|d docs]; simpl.
  - exists w. repeat split.
  - unfold bind. simpl. exists w. repeat split.
Qed.

Lemma insert_documents_eq (paths : list PathLike) (cs co : Z) :
  insert_documents_into_index paths cs co
  = for_each paths (insert_document cs co).
Proof. reflexivity. Qed.

Lemma insert_document_eq (cs co : Z) (f : PathLike) (oi : option Index)
    (w : World) :
  insert_document cs co f (oi, w)
  = match magic_load_doc f (ext w) with
    | (inl e, x1) => (inl e, (oi, after_load f x1 w))
    | (inr d, x1) =>
        match split_document d cs co x1 with
        | (inl e, x2) => (inl e, (oi, after_split f cs co x2 w))
        | (inr docs, x2) =>
            for_each docs insert_doc (oi, after_split f cs co x2 w)
        end
    end.
Proof.
  unfold insert_document, bind, liftW, logger, modify, invoke. simpl.
  destruct (magic_load_doc f (ext w)) as [[e|d] x1]; simpl; [reflexivity|].
  destruct (split_document d cs co x1) as [[e|docs] x2]; simpl;
    unfold after_split; rewrite <- app_assoc; reflexivity.
Qed.

Lemma insert_documents_keep_none (paths : list PathLike) (cs co : Z)
    (w : World) :
  exists w' : World,
    snd (insert_documents_into_index paths cs co (None, w)) = (None, w')
    /\ prompt_recorder_var w' = prompt_recorder_var w
    /\ recorders w' = recorders w.
Proof.
  rewrite insert_documents_eq. revert w.
  induction paths as [|f paths IH]; intros w; simpl.
  - exists w. repeat split.
  - unfold bind. rewrite insert_document_eq.
    destruct (magic_load_doc f (ext w)) as [[e|d] x1].
    { eexists. repeat split. }
    destruct (split_document d cs co x1) as [[e|docs] x2].
    { eexists. repeat split. }
    destruct (insert_docs_keep_none docs (after_split f cs co x2 w))
      as (w1 & Hs & _ & _ & _ & Hv & Hr).
    destruct (for_each docs insert_doc (None, after_split f cs co x2 w))
      as [[e|[]] s1]; simpl in Hs, Hv, Hr; subst s1.
    + exists w1. repeat split; assumption.
    + destruct (IH w1) as (w2 & Hs2 & Hv2 & Hr2).
      exists w2. split; [exact Hs2|]. split; congruence.
Qed.

Lemma run_op_no_index (o : Op) (b : QueryBot) (w : World) :
  index b = None ->
  exists w' : World, run_op o (b, w) = (b, w').
Proof.
  intros Hi. destruct o as [q k|f|a]; unfold run_op.
  - rewrite (QueryBot_call_no_index _ _ _ _ Hi). exists w. reflexivity.
  - unfold QueryBot_insert. rewrite Hi.
    destruct (insert_documents_keep_none [f] (chunk_size b) (chunk_overlap b) w)
      as (w' & Hs & _).
    destruct (insert_documents_into_index [f] (chunk_size b)
                (chunk_overlap b) (None, w)) as [r [oi w1]].
    simpl in Hs. injection Hs as -> ->. simpl. exists w'.
    rewrite <- Hi, set_index_same. reflexivity.
  - pose proof (QueryBot_save_self a b w) as Hb.
    destruct (QueryBot_save a (b, w)) as [r [b' w']]. simpl in Hb. subst b'.
    exists w'. reflexivity.
Qed.

Lemma run_ops_no_index (ops : list Op) (b : QueryBot) (w : World) :
  index b = None ->
  exists w' : World, run_ops ops (b, w) = (b, w').
Proof.
  intros Hi. revert w. unfold run_ops.
  induction ops as [|o ops IH]; intros w; simpl.
  - exists w. reflexivity.
  - destruct (run_op_no_index o b w Hi) as [w1 ->]. apply IH.
Qed.

(** X2. A bot constructed without document paths, with or without a saved
    index path, never gets an index: whatever answer, insert and save calls
    follow, [index] stays [None], the conversation history stays the two
    system messages and the query record stays empty, and an answer call
    raises the configuration error. *)
Theorem bot_without_documents_never_answers (sysmsg model : string)
    (temp : Temperature) (sip : option PathLike) (cs co : Z) (w w1 : World)
    (b : QueryBot) (ops : list Op) (q : string) (k : Z) :
  QueryBot_init sysmsg model temp None sip cs co w = (inr b, w1) ->
  index (fst (run_ops ops (b, w1))) = None
  /\ chat_history (fst (run_ops ops (b, w1)))
     = [SystemMessage sysmsg; SystemMessage anti_hallucination]
  /\ source_nodes (fst (run_ops ops (b, w1))) = ∅
  /\ fst (QueryBot_call q k (run_ops ops (b, w1))) = inl not_initialized.
Proof.
  intros H. apply QueryBot_init_returns in H.
  destruct H as (_ & Hh & Hn & Hi). specialize (Hi eq_refl).
  destruct (run_ops_no_index ops b w1 Hi) as [w' ->]. simpl.
  rewrite (QueryBot_call_no_index _ _ _ _ Hi). auto.
Qed.

(** X3. [insert] on a bot whose index is [None] still loads and splits the
    document; then it raises [AttributeError] as soon as there is a chunk
    to insert, and returns normally when the document has no chunk.  Either
    way the bot is unchanged: it has no index afterwards. *)
Theorem insert_without_index (b : QueryBot) (f : PathLike) (w : World)
    (d : Document) (docs : list Doc) (x1 x2 : Ext) :
  index b = None ->
  magic_load_doc f (ext w) = (inr d, x1) ->
  split_document d (chunk_size b) (chunk_overlap b) x1 = (inr docs, x2) ->
  QueryBot_insert f (b, w)
  = (match docs with
     | [] => inr tt
     | _ :: _ =>
         inl (AttributeError "'NoneType' object has no attribute 'insert'")
     end,
     (b, mkWorld x2
           (calls w ++ [CallMagicLoadDoc f;
                        CallSplitDocument (chunk_size b) (chunk_overlap b)])
           (logged w ++ [InfoInserting f])
           (prompt_recorder_var w) (recorders w))).
Proof.
  intros Hi Hl Hs.
  unfold QueryBot_insert. rewrite insert_documents_eq. simpl.
  assert (Hb : set_index None b = b)
    by (rewrite <- Hi; apply set_index_same).
  unfold bind. rewrite insert_document_eq, Hi, Hl, Hs.
  fold (after_split f (chunk_size b) (chunk_overlap b) x2 w).
  destruct docs as [|d0 docs]; simpl; unfold bind; simpl; rewrite Hb;
    reflexivity.
Qed.

(** ** Inserting documents *)

Lemma for_each_app {S A : Type} (l1 l2 : list A) (body : A -> M S unit)
    (s : S) :
  for_each (l1 ++ l2) body s
  = bind (for_each l1 body) (fun _ => for_each l2 body) s.
Proof.
  revert s. induction l1 as [|x l1 IH]; intros s; simpl.
  - reflexivity.
  - unfold bind.
    destruct (body x s) as [[e|u] s']; [reflexivity|].
    rewrite IH. reflexivity.
Qed.

Lemma insert_docs_all (docs : list Doc) (i i' : Index) (x x' : Ext) :
  Inserted i x docs i' x' ->
  forall w : World,
    ext w = x ->
    for_each docs insert_doc (Some i, w)
    = (inr tt,
       (Some i',
        mkWorld x' (calls w ++ map CallIndexInsert docs) (logged w)
                (prompt_recorder_var w) (recorders w))).
Proof.
  induction 1 as [i x|i x d docs i1 x1 i' x' Hd _ IH]; intros w Hx; simpl.
  - unfold ret. rewrite app_nil_r. destruct w. simpl in Hx. subst.
    reflexivity.
  - unfold bind. simpl. rewrite Hx, Hd.
    rewrite IH by reflexivity. simpl. rewrite <- app_assoc. reflexivity.
Qed.

Lemma insert_docs_until (pre rest : list Doc) (d : Doc) (i im i' : Index)
    (x xm x' : Ext) (e : Exn) :
  Inserted i x pre im xm ->
  index_insert im d xm = (inl e, i', x') ->
  forall w : World,
    ext w = x ->
    for_each (pre ++ d :: rest) insert_doc (Some i, w)
    = (inl e,
       (Some i',
        mkWorld x' (calls w ++ map CallIndexInsert (pre ++ [d])) (logged w)
                (prompt_recorder_var w) (recorders w))).
Proof.
  intros Hp. revert d rest i' x' e.
  induction Hp as [i x|i x d0 docs i1 x1 im xm Hd _ IH];
    intros d rest i' x' e He w Hx; simpl.
  - unfold bind. simpl. rewrite Hx, He. reflexivity.
  - unfold bind. simpl. rewrite Hx, Hd.
    rewrite (IH _ rest _ _ _ He) by reflexivity. simpl.
    rewrite <- app_assoc. reflexivity.
Qed.

(** Either every chunk is taken, or there is a first one that is refused. *)
Lemma inserted_or_refused (docs : list Doc) (i : Index) (x : Ext) :
  (exists (i' : Index) (x' : Ext), Inserted i x docs i' x')
  \/ (exists (pre rest : list Doc) (d : Doc) (im i' : Index) (xm x' : Ext)
             (e : Exn),
        docs = pre ++ d :: rest
        /\ Inserted i x pre im xm
        /\ index_insert im d xm = (inl e, i', x')).
Proof.
  revert i x. induction docs as [|d docs IH]; intros i x.
  - left. exists i, x. constructor.
  - destruct (index_insert i d x) as [[[e|[]] i1] x1] eqn:Hd.
    + right. exists [], docs, d, i, i1, x, x1, e.
      split; [reflexivity|]. split; [constructor|exact Hd].
    + destruct (IH i1 x1) as [(i' & x' & Hall)
                             |(pre & rest & d' & im & i' & xm & x' & e
                               & -> & Hp & He)].
      * left. exists i', x'. econstructor; eassumption.
      * right. exists (d :: pre), rest, d', im, i', xm, x', e.
        split; [reflexivity|]. split; [|exact He].
        econstructor; eassumption.
Qed.

(** X4. [insert] on a bot that holds an index, for a document that loads
    and splits: the chunks go to [index.insert] one call each and in order.
    When every call returns, [insert] returns with all the chunks passed.
    When a call raises, [insert] raises that exception at once: the chunks
    before it are in the index, no later chunk is passed.  One of the two
    is always the case.  Nothing of the bot changes but its index. *)
Theorem insert_is_in_order (b : QueryBot) (i : Index) (f : PathLike)
    (w : World) (d : Document) (docs : list Doc) (x1 x2 : Ext) :
  index b = Some i ->
  magic_load_doc f (ext w) = (inr d, x1) ->
  split_document d (chunk_size b) (chunk_overlap b) x1 = (inr docs, x2) ->
  (forall (i' : Index) (x' : Ext),
     Inserted i x2 docs i' x' ->
     QueryBot_insert f (b, w)
     = (inr tt,
        (set_index (Some i') b,
         after_inserts f (chunk_size b) (chunk_overlap b) docs x' w)))
  /\ (forall (pre rest : list Doc) (d0 : Doc) (im i' : Index) (xm x' : Ext)
            (e : Exn),
       docs = pre ++ d0 :: rest ->
       Inserted i x2 pre im xm ->
       index_insert im d0 xm = (inl e, i', x') ->
       QueryBot_insert f (b, w)
       = (inl e,
          (set_index (Some i') b,
           after_inserts f (chunk_size b) (chunk_overlap b) (pre ++ [d0])
             x' w)))
  /\ ((exists (i' : Index) (x' : Ext), Inserted i x2 docs i' x')
      \/ (exists (pre rest : list Doc) (d0 : Doc) (im i' : Index)
                 (xm x' : Ext) (e : Exn),
            docs = pre ++ d0 :: rest
            /\ Inserted i x2 pre im xm
            /\ index_insert im d0 xm = (inl e, i', x'))).
Proof.
  intros Hi Hl Hs.
  assert (Heq : QueryBot_insert f (b, w)
    = (fst (for_each docs insert_doc
              (Some i, after_split f (chunk_size b) (chunk_overlap b) x2 w)),
       (set_index
          (fst (snd (for_each docs insert_doc
                       (Some i,
                        after_split f (chunk_size b) (chunk_overlap b) x2 w))))
          b,
        snd (snd (for_each docs insert_doc
                    (Some i,
                     after_split f (chunk_size b) (chunk_overlap b) x2 w)))))).
  { unfold QueryBot_insert. rewrite insert_documents_eq. simpl.
    unfold bind. rewrite insert_document_eq, Hi, Hl, Hs.
    destruct (for_each docs insert_doc
                (Some i, after_split f (chunk_size b) (chunk_overlap b) x2 w))
      as [[e|[]] [oi w1]]; reflexivity. }
  split; [|split].
  - intros i' x' Hall. rewrite Heq.
    rewrite (insert_docs_all _ _ _ _ _ Hall) by reflexivity.
    unfold after_inserts, after_split. simpl. rewrite <- app_assoc.
    reflexivity.
  - intros pre rest d0 im i' xm x' e -> Hp He. rewrite Heq.
    rewrite (insert_docs_until _ rest _ _ _ _ _ _ _ _ Hp He) by reflexivity.
    unfold after_inserts, after_split. simpl. rewrite <- app_assoc.
    reflexivity.
  - apply inserted_or_refused.
Qed.

(** ** The constructor *)

(** X5. Constructed with a saved index path and an empty list of document
    paths, the bot keeps the index it loaded: the only call to a
    collaborator is the load, no warning is logged, and an answer call goes
    on to query the index. *)
Theorem saved_index_with_empty_documents (sysmsg model : string)
    (temp : Temperature) (p : PathLike) (cs co : Z) (w : World) (i : Index)
    (x : Ext) :
  load_from_disk p (new_chat model temp) (ext w) = (inr i, x) ->
  exists (b : QueryBot) (w1 : World),
    QueryBot_init sysmsg model temp (Some []) (Some p) cs co w = (inr b, w1)
    /\ index b = Some i
    /\ calls_made w w1 = [CallLoadFromDisk p]
    /\ logged w1 = logged w
    /\ forall (q : string) (k : Z) (w2 : World),
         exists rest : list Call,
           calls_made w2 (snd (snd (QueryBot_call q k (b, w2))))
           = CallIndexQuery q k :: rest.
Proof.
  intros Hl.
  unfold QueryBot_init, bind, ret, invoke. rewrite Hl. simpl.
  eexists. eexists. split; [reflexivity|]. split; [reflexivity|]. split.
  { unfold calls_made. simpl. rewrite drop_app_length. reflexivity. }
  split; [reflexivity|]. intros q k w2.
  match goal with
  | |- context [QueryBot_call q k (?b0, w2)] =>
      destruct (QueryBot_call q k (b0, w2)) as [r [b' w']] eqn:E;
      apply QueryBot_call_inv in E
  end.
  simpl. unfold calls_made.
  inversion E as [Hi|idx e x0 Hi Hq|idx nodes e x1 x2 Hi Hq Hch
                 |idx nodes resp x1 x2 Hi Hq Hch]; subst.
  - discriminate Hi.
  - simpl. rewrite drop_app_length. eexists. reflexivity.
  - simpl. rewrite drop_app_length. eexists. reflexivity.
  - match goal with
    | |- context [autorecord ?a ?c ?w0] =>
        destruct (autorecord_frame a c w0) as (_ & _ & Hcalls & _)
    end.
    rewrite Hcalls. simpl. rewrite drop_app_length. eexists. reflexivity.
Qed.

Lemma QueryBot_init_documents (sysmsg model : string) (temp : Temperature)
    (paths : list PathLike) (sip : option PathLike) (cs co : Z) (w : World) :
  QueryBot_init sysmsg model temp (Some paths) sip cs co w
  = match (match sip with
           | Some p => invoke (CallLoadFromDisk p)
                         (load_from_disk p (new_chat model temp)) w
           | None => (inr (new_index (new_chat model temp)), w)
           end) with
    | (inl e, w0) => (inl e, w0)
    | (inr i, w0) =>
        match for_each paths (insert_document cs co) (Some i, w0) with
        | (inl e, (_, w')) => (inl e, w')
        | (inr _, (oi, w')) =>
            (inr (mkQueryBot sysmsg oi (Some paths) (new_chat model temp)
                    [SystemMessage sysmsg; SystemMessage anti_hallucination]
                    ∅ cs co), w')
        end
    end.
Proof.
  unfold QueryBot_init, bind, ret. rewrite insert_documents_eq.
  destruct sip as [p|].
  - destruct (invoke (CallLoadFromDisk p)
                (load_from_disk p (new_chat model temp)) w) as [[e|i] w0];
      [reflexivity|].
    destruct (for_each paths (insert_document cs co) (Some i, w0))
      as [[e|u] [oi w']]; reflexivity.
  - destruct (for_each paths (insert_document cs co)
                (Some (new_index (new_chat model temp)), w))
      as [[e|u] [oi w']]; reflexivity.
Qed.

(** X6. Constructing a bot with the document paths [ps ++ [f]] does what
    constructing it with [ps] and then calling [insert(f)] does: the same
    calls and log lines, the same exception if the insertion raises, and
    otherwise the same bot but for [doc_paths], which [insert] does not
    update. *)
Theorem constructor_then_insert (sysmsg model : string) (temp : Temperature)
    (ps : list PathLike) (f : PathLike) (sip : option PathLike) (cs co : Z)
    (w w1 : World) (b : QueryBot) :
  QueryBot_init sysmsg model temp (Some ps) sip cs co w = (inr b, w1) ->
  snd (QueryBot_init sysmsg model temp (Some (ps ++ [f])) sip cs co w)
  = snd (snd (QueryBot_insert f (b, w1)))
  /\ doc_paths (fst (snd (QueryBot_insert f (b, w1)))) = Some ps
  /\ match fst (QueryBot_insert f (b, w1)) with
     | inl e =>
         fst (QueryBot_init sysmsg model temp (Some (ps ++ [f])) sip cs co w)
         = inl e
     | inr _ =>
         fst (QueryBot_init sysmsg model temp (Some (ps ++ [f])) sip cs co w)
         = inr (mkQueryBot sysmsg
                  (index (fst (snd (QueryBot_insert f (b, w1)))))
                  (Some (ps ++ [f]))
                  (chat (fst (snd (QueryBot_insert f (b, w1)))))
                  (chat_history (fst (snd (QueryBot_insert f (b, w1)))))
                  (source_nodes (fst (snd (QueryBot_insert f (b, w1)))))
                  cs co)
     end.
Proof.
  rewrite !QueryBot_init_documents.
  destruct (match sip with
            | Some p => invoke (CallLoadFromDisk p)
                          (load_from_disk p (new_chat model temp)) w
            | None => (inr (new_index (new_chat model temp)), w)
            end) as [[e|i] w0]; [discriminate|].
  rewrite for_each_app. unfold bind at 1 2 3.
  destruct (for_each ps (insert_document cs co) (Some i, w0))
    as [[e|[]] [oi w2]]; [discriminate|].
  intros H. injection H as <- <-.
  unfold QueryBot_insert. rewrite insert_documents_eq.
  cbn [chunk_size chunk_overlap index].
  destruct (for_each [f] (insert_document cs co) (oi, w2))
    as [[e|[]] [oi' w']]; simpl; repeat split.
Qed.

(** ** History and query record together *)

Lemma run_op_turns (o : Op) (b : QueryBot) (w : World) :
  chat_history (fst (run_op o (b, w)))
  = chat_history b ++ flat_map turn (turn_returned o (b, w))
  /\ dom (source_nodes (fst (run_op o (b, w))))
     = dom (source_nodes b) ∪ list_to_set ((turn_returned o (b, w)).*1)
  /\ sublist ((turn_returned o (b, w)).*1) (queries [o]).
Proof.
  destruct o as [q k|f|a]; unfold run_op, turn_returned.
  - destruct (QueryBot_call q k (b, w)) as [r [b' w']] eqn:E.
    apply QueryBot_call_inv in E. simpl fst. simpl snd.
    inversion E as [Hi|idx e x0 Hi Hq|idx nodes e x1 x2 Hi Hq Hch
                   |idx nodes resp x1 x2 Hi Hq Hch]; subst.
    1-3: simpl; rewrite app_nil_r; split; [reflexivity|];
         split; [symmetry; apply union_empty_r_L|apply sublist_nil_l].
    simpl. split; [reflexivity|]. split.
    + rewrite dom_insert_L, union_comm_L. f_equal.
      symmetry. apply union_empty_r_L.
    + reflexivity.
  - destruct (QueryBot_insert_self f b w) as [oi ->]. simpl.
    rewrite app_nil_r. split; [reflexivity|].
    split; [symmetry; apply union_empty_r_L|apply sublist_nil_l].
  - rewrite QueryBot_save_self. simpl. rewrite app_nil_r.
    split; [reflexivity|].
    split; [symmetry; apply union_empty_r_L|apply sublist_nil_l].
Qed.

Lemma run_ops_turns (ops : list Op) (b : QueryBot) (w : World) :
  chat_history (fst (run_ops ops (b, w)))
  = chat_history b ++ flat_map turn (turns_returned ops (b, w))
  /\ dom (source_nodes (fst (run_ops ops (b, w))))
     = dom (source_nodes b) ∪ list_to_set ((turns_returned ops (b, w)).*1)
  /\ sublist ((turns_returned ops (b, w)).*1) (queries ops).
Proof.
  revert b w. unfold run_ops.
  induction ops as [|o ops IH]; intros b w;
    cbn [fold_left turns_returned].
  - simpl. rewrite app_nil_r.
    split; [reflexivity|].
    split; [symmetry; apply union_empty_r_L|reflexivity].
  - destruct (run_op_turns o b w) as (Hh1 & Hd1 & Hs1).
    destruct (run_op o (b, w)) as [b1 w1]. simpl in Hh1, Hd1.
    destruct (IH b1 w1) as (Hh2 & Hd2 & Hs2).
    split; [|split].
    + rewrite Hh2, Hh1, flat_map_app, <- app_assoc. reflexivity.
    + rewrite Hd2, Hd1, fmap_app, list_to_set_app_L.
      symmetry. apply (assoc_L (∪)).
    + rewrite fmap_app.
      replace (queries (o :: ops)) with (queries [o] ++ queries ops)
        by (destruct o; reflexivity).
      apply sublist_app; assumption.
Qed.

Lemma length_flat_map_turn (pairs : list (string * Message)) :
  length (flat_map turn pairs) = 2 * length pairs.
Proof. induction pairs as [|p pairs IH]; simpl; [reflexivity|]. lia. Qed.

(** X7. After the constructor and any sequence of answer, insert and save
    calls, the conversation history is the two system messages followed by
    one turn per answer call that returned, in the order of the calls, each
    turn being the human query of that call and then the very answer the
    call returned; calls that raised, inserts and saves leave no entry.
    The queries filed in the query record are exactly the queries of those
    turns. *)
Theorem history_is_turns_and_record_has_their_queries (sysmsg model : string)
    (temp : Temperature) (dps : option (list PathLike))
    (sip : option PathLike) (cs co : Z) (w w1 : World) (b : QueryBot)
    (ops : list Op) :
  QueryBot_init sysmsg model temp dps sip cs co w = (inr b, w1) ->
  chat_history (fst (run_ops ops (b, w1)))
  = [SystemMessage sysmsg; SystemMessage anti_hallucination]
    ++ flat_map turn (turns_returned ops (b, w1))
  /\ dom (source_nodes (fst (run_ops ops (b, w1))))
     = list_to_set ((turns_returned ops (b, w1)).*1)
  /\ sublist ((turns_returned ops (b, w1)).*1) (queries ops)
  /\ length (chat_history (fst (run_ops ops (b, w1))))
     = 2 + 2 * length (turns_returned ops (b, w1)).
Proof.
  intros H. apply QueryBot_init_returns in H.
  destruct H as (_ & Hh & Hn & _).
  destruct (run_ops_turns ops b w1) as (Hh' & Hd & Hs).
  rewrite Hh', Hh, Hd, Hn.
  split; [reflexivity|].
  split; [rewrite dom_empty_L; apply union_empty_l_L|]. split; [exact Hs|].
  rewrite length_app, length_flat_map_turn. reflexivity.
Qed.

(** ** More on the recorder *)

Lemma QueryBot_call_records (b b' : QueryBot) (q : string) (k : Z)
    (w w' : World) (r : Result Message) (rec : nat)
    (es : list RecorderEntry) :
  ctx_get (prompt_recorder_var w) None = Some rec ->
  recorders w !! rec = Some (mkRecorder es) ->
  QueryBot_call q k (b, w) = (r, (b', w')) ->
  prompt_recorder_var w' = prompt_recorder_var w
  /\ recorders w'
     = <[rec := mkRecorder
                  (es ++ match r with
                         | inr resp => [mkEntry q (content resp)]
                         | inl _ => []
                         end)]> (recorders w).
Proof.
  intros Hv Hl H.
  pose proof (QueryBot_call_recorder_frame b q k w) as [Hvar _].
  rewrite H in Hvar. simpl in Hvar. split; [exact Hvar|].
  apply QueryBot_call_inv in H.
  inversion H as [Hi|idx e x0 Hi Hq|idx nodes e x1 x2 Hi Hq Hch
                 |idx nodes resp x1 x2 Hi Hq Hch]; subst.
  1-3: simpl; rewrite app_nil_r; symmetry; apply insert_id; exact Hl.
  rewrite autorecord_active with (rec := rec) by exact Hv. simpl.
  apply map_eq. intros i. rewrite lookup_alter, lookup_insert.
  destruct (decide (rec = i)) as [<-|Hne]; [|reflexivity].
  simpl in Hl. rewrite Hl. reflexivity.
Qed.

(** X8. While a recorder stays the active one, what it gathers over a
    sequence of answer calls, on any bots, is exactly what the callers got
    back: its entries grow by one entry per call that returned, in call
    order, each holding the query and the text of the answer; calls that
    raised leave no entry, and no other recorder changes. *)
Theorem recorder_mirrors_answers (l : list (QueryBot * string * Z))
    (w : World) (rec : nat) (es : list RecorderEntry) :
  ctx_get (prompt_recorder_var w) None = Some rec ->
  recorders w !! rec = Some (mkRecorder es) ->
  recorders (answer_calls l w)
  = <[rec := mkRecorder (es ++ answers_returned l w)]> (recorders w)
  /\ prompt_recorder_var (answer_calls l w) = prompt_recorder_var w.
Proof.
  revert w es. induction l as [|[[b q] k] l IH]; intros w es Hv Hl; simpl.
  - rewrite app_nil_r. split; [|reflexivity].
    symmetry. apply insert_id. exact Hl.
  - destruct (QueryBot_call q k (b, w)) as [r [b' w']] eqn:E.
    destruct (QueryBot_call_records _ _ _ _ _ _ _ _ _ Hv Hl E) as [Hvar Hrec].
    simpl snd.
    destruct (IH w' (es ++ match r with
                           | inr resp => [mkEntry q (content resp)]
                           | inl _ => []
                           end)) as [IHr IHv].
    + rewrite Hvar. exact Hv.
    + rewrite Hrec. apply lookup_insert_eq.
    + rewrite IHr, IHv, Hrec, Hvar, insert_insert_eq. split; [|reflexivity].
      destruct r as [e|resp]; simpl.
      * rewrite app_nil_r. reflexivity.
      * rewrite <- app_assoc. reflexivity.
Qed.

Lemma with_recorder_eq {S A : Type} (rec : nat) (body : M (S * World) A)
    (st : S) (w : World) :
  with_recorder rec body (st, w)
  = (fst (body (st, set_recorder_var (Bound (Some rec)) w)),
     (fst (snd (body (st, set_recorder_var (Bound (Some rec)) w))),
      set_recorder_var (Bound None)
        (snd (snd (body (st, set_recorder_var (Bound (Some rec)) w)))))).
Proof.
  unfold with_recorder, liftW, PromptRecorder_enter, PromptRecorder_exit,
    bind, modify, ret. simpl.
  destruct (body (st, set_recorder_var (Bound (Some rec)) w))
    as [[e|a] [st2 w2]]; reflexivity.
Qed.

(** X9. Recorder scopes do not nest.  When a second recorder's block ends
    inside the block of a first one, the slot is cleared, not given back to
    the first recorder: an answer call made after it, still inside the
    first block, is recorded nowhere. *)
Theorem nested_scope_ends_outer_recording {A : Type} (r1 r2 : nat)
    (inner : M (QueryBot * World) A) (q : string) (k : Z)
    (s : QueryBot * World) :
  let entered := (fst s, set_recorder_var (Bound (Some r1)) (snd s)) in
  let after_inner := snd (with_recorder r2 inner entered) in
  prompt_recorder_var (snd after_inner) = Bound None
  /\ recorders (snd (snd (QueryBot_call q k after_inner)))
     = recorders (snd after_inner)
  /\ recorders
       (snd (snd (with_recorder r1
                    (bind (with_recorder r2 inner)
                          (fun _ => QueryBot_call q k)) s)))
     = recorders (snd after_inner).
Proof.
  intros entered after_inner.
  destruct (with_recorder_clears r2 inner entered) as [Hclear _].
  fold after_inner in Hclear.
  assert (Hcall : recorders (snd (snd (QueryBot_call q k after_inner)))
                  = recorders (snd after_inner)).
  { destruct after_inner as [b1 w1]. simpl in *.
    destruct (QueryBot_call_recorder_frame b1 q k w1) as [_ Hr].
    apply Hr. rewrite Hclear. reflexivity. }
  split; [exact Hclear|]. split; [exact Hcall|].
  destruct s as [b0 w0]. rewrite with_recorder_eq. simpl snd.
  change (b0, set_recorder_var (Bound (Some r1)) w0) with entered.
  unfold bind. fold after_inner.
  destruct (with_recorder r2 inner entered) as [[e|a] s1] eqn:E;
    subst after_inner; simpl in Hcall |- *.
  - reflexivity.
  - exact Hcall.
Qed.

End MoreProperties.

(** * Properties of the rest of the recorder *)

(** ** [PromptRecorder.save] *)

Lemma append_assoc (a b c : string) : (a +:+ b) +:+ c = a +:+ (b +:+ c).
Proof.
  induction a as [|x a IH]; [reflexivity|].
  rewrite !append_cons, IH. reflexivity.
Qed.

Lemma blocks_app (l1 l2 : list RecorderEntry) :
  recorder_file.blocks (l1 ++ l2)
  = recorder_file.blocks l1 +:+ recorder_file.blocks l2.
Proof.
  induction l1 as [|e l1 IH]; [reflexivity|].
  simpl. unfold recorder_file.blocks in *. simpl.
  rewrite IH, append_assoc. reflexivity.
Qed.

Lemma append_nil_l (s : string) : EmptyString +:+ s = s.
Proof. reflexivity. Qed.

Section SaveProperties.

Variable open_error : gmap string string -> PurePath -> option Exn.
Variable write_error
  : gmap string string -> string -> string -> option (Exn * string).
Variable close_error : gmap string string -> string -> option (Exn * string).

Lemma write_blocks (es : list RecorderEntry) (name acc : string)
    (fs : gmap string string) :
  recorder_file.writable write_error name es ->
  fs !! name = Some acc ->
  for_each es
    (fun e => recorder_file.f_write write_error name (recorder_file.block e))
    fs
  = (inr tt, <[name := acc +:+ recorder_file.blocks es]> fs).
Proof.
  intros Hw. revert acc fs.
  induction Hw as [|e es He _ IH]; intros acc fs Hl; simpl.
  - unfold ret, recorder_file.blocks. simpl. rewrite append_nil_r.
    rewrite insert_id by exact Hl. reflexivity.
  - unfold bind, recorder_file.f_write at 1. rewrite He, Hl. simpl.
    rewrite (IH (acc +:+ recorder_file.block e)) by apply lookup_insert_eq.
    rewrite insert_insert_eq, append_assoc. reflexivity.
Qed.

Lemma write_blocks_until (pre rest : list RecorderEntry) (e0 : RecorderEntry)
    (name acc kept : string) (exn : Exn) (fs : gmap string string) :
  recorder_file.writable write_error name pre ->
  fs !! name = Some acc ->
  write_error (<[name := acc +:+ recorder_file.blocks pre]> fs) name
    (recorder_file.block e0) = Some (exn, kept) ->
  for_each (pre ++ e0 :: rest)
    (fun e => recorder_file.f_write write_error name (recorder_file.block e))
    fs
  = (inl exn, <[name := kept]> fs).
Proof.
  intros Hw. revert acc fs.
  induction Hw as [|e es He _ IH]; intros acc fs Hl Hf; simpl.
  - unfold recorder_file.blocks in Hf. simpl in Hf.
    rewrite append_nil_r, insert_id in Hf by exact Hl.
    unfold bind, recorder_file.f_write at 1. rewrite Hf. reflexivity.
  - unfold bind, recorder_file.f_write at 1. rewrite He, Hl. simpl.
    rewrite (IH (acc +:+ recorder_file.block e)).
    + rewrite insert_insert_eq. reflexivity.
    + apply lookup_insert_eq.
    + rewrite insert_insert_eq, append_assoc. exact Hf.
Qed.

Lemma writes_keep_other_files (es : list RecorderEntry) (name other : string)
    (fs : gmap string string) :
  other <> name ->
  snd (for_each es
         (fun e => recorder_file.f_write write_error name
                     (recorder_file.block e)) fs) !! other
  = fs !! other.
Proof.
  intros Hne. revert fs. induction es as [|e es IH]; intros fs; simpl.
  - reflexivity.
  - unfold bind, recorder_file.f_write at 1.
    destruct (write_error fs name (recorder_file.block e)) as [[exn kept]|];
      simpl.
    + apply lookup_insert_ne. congruence.
    + rewrite IH. apply lookup_insert_ne. congruence.
Qed.

Lemma save_eq (self : PromptRecorder) (path : PathLike)
    (fs : gmap string string) :
  open_error fs (Path path) = None ->
  recorder_file.PromptRecorder_save open_error write_error close_error self
    path fs
  = let body :=
      for_each (prompts_and_responses self)
        (fun e => recorder_file.f_write write_error (to_str (Path path))
                    (recorder_file.block e))
        (<[to_str (Path path) := EmptyString]> fs) in
    match recorder_file.f_close close_error (to_str (Path path)) (snd body)
    with
    | (inl e, fs3) => (inl e, fs3)
    | (inr _, fs3) => (fst body, fs3)
    end.
Proof.
  intros Ho.
  unfold recorder_file.PromptRecorder_save, recorder_file.with_open,
    recorder_file.open_w. rewrite Ho.
  destruct (for_each _ _ _) as [r fs2]. reflexivity.
Qed.

(** X10. [save]: when the file cannot be opened, [save] raises and every
    file is as it was.  When it can, and no write of a block and not the
    closing raises, the file holds exactly the blocks of the entries, in
    order, each being the prompt between [**] marks, a blank line, the
    response and a blank line: what it held before is gone, and an empty
    recorder gives an empty file.  When the write of a block raises, the
    blocks after it are not written and, the closing going well, [save]
    raises that exception, the file being left as that write left it.
    Whatever happens, no other file changes. *)
Theorem save_writes_the_blocks (self : PromptRecorder) (path : PathLike)
    (fs : gmap string string) :
  (forall e : Exn,
     open_error fs (Path path) = Some e ->
     recorder_file.PromptRecorder_save open_error write_error close_error
       self path fs = (inl e, fs))
  /\ (open_error fs (Path path) = None ->
      recorder_file.writable write_error (to_str (Path path)) (prompts_and_responses self) ->
      close_error
        (<[to_str (Path path)
           := recorder_file.blocks (prompts_and_responses self)]> fs)
        (to_str (Path path)) = None ->
      recorder_file.PromptRecorder_save open_error write_error close_error
        self path fs
      = (inr tt,
         <[to_str (Path path)
           := recorder_file.blocks (prompts_and_responses self)]> fs))
  /\ (forall (pre rest : list RecorderEntry) (e0 : RecorderEntry)
             (exn : Exn) (kept : string),
        open_error fs (Path path) = None ->
        prompts_and_responses self = pre ++ e0 :: rest ->
        recorder_file.writable write_error (to_str (Path path)) pre ->
        write_error
          (<[to_str (Path path) := recorder_file.blocks pre]> fs)
          (to_str (Path path)) (recorder_file.block e0) = Some (exn, kept) ->
        close_error (<[to_str (Path path) := kept]> fs) (to_str (Path path))
        = None ->
        recorder_file.PromptRecorder_save open_error write_error close_error
          self path fs
        = (inl exn, <[to_str (Path path) := kept]> fs))
  /\ (forall other : string,
        other <> to_str (Path path) ->
        snd (recorder_file.PromptRecorder_save open_error write_error
               close_error self path fs) !! other
        = fs !! other).
Proof.
  split; [|split; [|split]].
  - intros e Ho.
    unfold recorder_file.PromptRecorder_save, recorder_file.with_open,
      recorder_file.open_w. rewrite Ho. reflexivity.
  - intros Ho Hw Hc. rewrite save_eq by exact Ho. cbv zeta.
    rewrite (write_blocks _ _ EmptyString) by
      (try exact Hw; apply lookup_insert_eq).
    simpl. rewrite insert_insert_eq, append_nil_l.
    unfold recorder_file.f_close. rewrite Hc. reflexivity.
  - intros pre rest e0 exn kept Ho Hsplit Hw Hf Hc.
    rewrite save_eq by exact Ho. cbv zeta. rewrite Hsplit.
    rewrite (write_blocks_until pre rest e0 _ EmptyString kept exn);
      [|exact Hw|apply lookup_insert_eq
       |simpl; rewrite insert_insert_eq; exact Hf].
    simpl. rewrite insert_insert_eq.
    unfold recorder_file.f_close. rewrite Hc. reflexivity.
  - intros other Hne.
    destruct (open_error fs (Path path)) as [e|] eqn:Ho.
    + unfold recorder_file.PromptRecorder_save, recorder_file.with_open,
        recorder_file.open_w. rewrite Ho. reflexivity.
    + rewrite save_eq by exact Ho. cbv zeta.
      pose proof (writes_keep_other_files (prompts_and_responses self)
                    (to_str (Path path)) other
                    (<[to_str (Path path) := EmptyString]> fs) Hne) as Hk.
      rewrite lookup_insert_ne in Hk by congruence.
      destruct (for_each _ _ _) as [r fs2]. simpl in Hk |- *.
      unfold recorder_file.f_close.
      destruct (close_error fs2 (to_str (Path path))) as [[e kept]|]; simpl.
      * rewrite lookup_insert_ne by congruence. exact Hk.
      * destruct r; exact Hk.
Qed.

(** X11. Logging one more pair and saving again, the file system raising
    nothing in either save, extends the saved file by exactly the block of
    that pair: the text saved before stays at the head of the file. *)
Theorem save_after_log_extends `{C : Collaborators}
    (rec : nat) (self : PromptRecorder) (p r : string) (path : PathLike)
    (w : World) (fs fs' : gmap string string) :
  recorders w !! rec = Some self ->
  open_error fs (Path path) = None ->
  open_error fs' (Path path) = None ->
  (forall (fs0 : gmap string string) (s : string),
     write_error fs0 (to_str (Path path)) s = None) ->
  (forall fs0 : gmap string string,
     close_error fs0 (to_str (Path path)) = None) ->
  exists (self' : PromptRecorder) (old : string),
    recorders (snd (PromptRecorder_log rec p r w)) !! rec = Some self'
    /\ recorder_file.PromptRecorder_save open_error write_error close_error
         self path fs
       = (inr tt, <[to_str (Path path) := old]> fs)
    /\ recorder_file.PromptRecorder_save open_error write_error close_error
         self' path fs'
       = (inr tt,
          <[to_str (Path path)
            := old +:+ recorder_file.block (mkEntry p r)]> fs').
Proof.
  intros Hl Ho Ho' Hw Hc.
  assert (Hall : forall es : list RecorderEntry,
            recorder_file.writable write_error (to_str (Path path)) es).
  { intros es. apply Forall_forall. intros e _ fs0. apply Hw. }
  assert (Hsave : forall (s : PromptRecorder) (fs0 : gmap string string),
            open_error fs0 (Path path) = None ->
            recorder_file.PromptRecorder_save open_error write_error
              close_error s path fs0
            = (inr tt,
               <[to_str (Path path)
                 := recorder_file.blocks (prompts_and_responses s)]> fs0)).
  { intros s fs0 Hopen. rewrite save_eq by exact Hopen. cbv zeta.
    rewrite (write_blocks _ _ EmptyString) by
      (try apply Hall; apply lookup_insert_eq).
    simpl. rewrite insert_insert_eq.
    unfold recorder_file.f_close. rewrite Hc. reflexivity. }
  exists (mkRecorder (prompts_and_responses self ++ [mkEntry p r])),
         (recorder_file.blocks (prompts_and_responses self)).
  split; [|split].
  - unfold PromptRecorder_log, modify. simpl.
    rewrite lookup_alter, decide_True by reflexivity. rewrite Hl. reflexivity.
  - apply Hsave. exact Ho.
  - rewrite Hsave by exact Ho'. simpl.
    rewrite blocks_app. unfold recorder_file.blocks at 2.
    simpl. rewrite append_nil_r. reflexivity.
Qed.

End SaveProperties.

(** ** The buttons of [PromptRecorder.panel] *)

Lemma getitem_in_range {A : Type} (l : list A) (j : Z) :
  (0 <= j < Z.of_nat (length l))%Z ->
  exists x : A, l !! Z.to_nat j = Some x /\ getitem l j = inr x.
Proof.
  intros Hj. unfold getitem.
  replace (j <? 0)%Z with false by (symmetry; apply Z.ltb_ge; lia).
  replace ((0 <=? j)%Z && (j <? Z.of_nat (length l))%Z) with true
    by (symmetry; apply andb_true_intro; split;
        [apply Z.leb_le|apply Z.ltb_lt]; lia).
  destruct (lookup_lt_is_Some_2 l (Z.to_nat j)) as [x Hx]; [lia|].
  exists x. rewrite Hx. split; reflexivity.
Qed.

Lemma getitem_above {A : Type} (l : list A) (j : Z) :
  (0 <= j)%Z -> (Z.of_nat (length l) <= j)%Z -> getitem l j = inl IndexError.
Proof.
  intros H0 Hj. unfold getitem.
  replace (j <? 0)%Z with false by (symmetry; apply Z.ltb_ge; lia).
  replace ((0 <=? j)%Z && (j <? Z.of_nat (length l))%Z) with false;
    [reflexivity|].
  symmetry. apply andb_false_iff. right. apply Z.ltb_ge. lia.
Qed.

(** X12. [panel] sets the shared [index] to 0 whatever it was, also when it
    raises: on a recorder with no entry it raises [IndexError], otherwise
    its panes show the first entry. *)
Theorem panel_shows_first_entry (self : PromptRecorder) (i : Z) :
  recorder_panel.panel self i
  = match prompts_and_responses self with
    | [] => (inl IndexError, 0%Z)
    | e :: _ =>
        (inr (recorder_panel.mkPanes (prompt e) (response e)), 0%Z)
    end.
Proof.
  unfold recorder_panel.panel, bind, modify, gets, pure_result, ret.
  destruct (prompts_and_responses self) as [|e l] eqn:E.
  - reflexivity.
  - destruct (getitem_in_range (e :: l) 0) as [x [Hx Hg]].
    { simpl length. lia. }
    simpl in Hx. injection Hx as <-. rewrite Hg. reflexivity.
Qed.

Lemma update_objects_in_range (self : PromptRecorder) (j : Z)
    (p : recorder_panel.Panes) :
  (0 <= j < recorder_panel.len self)%Z ->
  exists e : RecorderEntry,
    prompts_and_responses self !! Z.to_nat j = Some e
    /\ recorder_panel.update_objects self j p
       = (inr tt, recorder_panel.mkPanes (prompt e) (response e)).
Proof.
  intros Hj. destruct (getitem_in_range _ j Hj) as [e [He Hg]].
  exists e. split; [exact He|].
  unfold recorder_panel.update_objects, bind, pure_result, modify.
  rewrite Hg. reflexivity.
Qed.

Lemma update_objects_above (self : PromptRecorder) (j : Z)
    (p : recorder_panel.Panes) :
  (0 <= j)%Z -> (recorder_panel.len self <= j)%Z ->
  recorder_panel.update_objects self j p = (inl IndexError, p).
Proof.
  intros H0 Hj.
  unfold recorder_panel.update_objects, bind, pure_result.
  rewrite getitem_above by assumption. reflexivity.
Qed.

Lemma next_button_eq (self : PromptRecorder) (i : Z)
    (p : recorder_panel.Panes) :
  recorder_panel.next_button_callback self (i, p)
  = (fst (recorder_panel.update_objects self
            (Z.min (i + 1) (recorder_panel.len self - 1)) p),
     (Z.min (i + 1) (recorder_panel.len self - 1),
      snd (recorder_panel.update_objects self
             (Z.min (i + 1) (recorder_panel.len self - 1)) p))).
Proof.
  unfold recorder_panel.next_button_callback, bind, recorder_panel.on_index,
    recorder_panel.on_panes, modify, gets, ret. simpl.
  destruct (i + 1 >? recorder_panel.len self - 1)%Z eqn:Hc; simpl.
  - apply Z.gtb_lt in Hc. rewrite Z.min_r by lia.
    destruct (recorder_panel.update_objects self
                (recorder_panel.len self - 1) p) as [[e|[]] p']; reflexivity.
  - rewrite Z.gtb_ltb in Hc. apply Z.ltb_ge in Hc. rewrite Z.min_l by lia.
    destruct (recorder_panel.update_objects self (i + 1) p) as [[e|[]] p'];
      reflexivity.
Qed.

Lemma prev_button_eq (self : PromptRecorder) (i : Z)
    (p : recorder_panel.Panes) :
  recorder_panel.prev_button_callback self (i, p)
  = (fst (recorder_panel.update_objects self (Z.max (i - 1) 0) p),
     (Z.max (i - 1) 0,
      snd (recorder_panel.update_objects self (Z.max (i - 1) 0) p))).
Proof.
  unfold recorder_panel.prev_button_callback, bind, recorder_panel.on_index,
    recorder_panel.on_panes, modify, gets, ret. simpl.
  destruct (i - 1 <? 0)%Z eqn:Hc; simpl.
  - apply Z.ltb_lt in Hc. rewrite Z.max_r by lia.
    destruct (recorder_panel.update_objects self 0 p) as [[e|[]] p'];
      reflexivity.
  - apply Z.ltb_ge in Hc. rewrite Z.max_l by lia.
    destruct (recorder_panel.update_objects self (i - 1) p) as [[e|[]] p'];
      reflexivity.
Qed.

(** X13. On a recorder that has entries, a click on the next button never
    raises when [index] is not below -1: [index] goes up by one but not
    past the last entry, and the panes show the entry at the new
    [index]. *)
Theorem next_button_stays_in_range (self : PromptRecorder) (i : Z)
    (p : recorder_panel.Panes) :
  (0 < recorder_panel.len self)%Z ->
  (-1 <= i)%Z ->
  exists e : RecorderEntry,
    prompts_and_responses self
      !! Z.to_nat (Z.min (i + 1) (recorder_panel.len self - 1)) = Some e
    /\ (0 <= Z.min (i + 1) (recorder_panel.len self - 1)
        < recorder_panel.len self)%Z
    /\ recorder_panel.next_button_callback self (i, p)
       = (inr tt,
          (Z.min (i + 1) (recorder_panel.len self - 1),
           recorder_panel.mkPanes (prompt e) (response e))).
Proof.
  intros Hn Hi.
  assert (Hr : (0 <= Z.min (i + 1) (recorder_panel.len self - 1)
                < recorder_panel.len self)%Z) by lia.
  destruct (update_objects_in_range self _ p Hr) as [e [He Hu]].
  exists e. split; [exact He|]. split; [exact Hr|].
  rewrite next_button_eq, Hu. reflexivity.
Qed.

(** X14. A click on the previous button takes [index] down by one but not
    below 0; when the new [index] is within the recorder's entries the
    panes show the entry there and nothing is raised. *)
Theorem prev_button_stays_in_range (self : PromptRecorder) (i : Z)
    (p : recorder_panel.Panes) :
  (Z.max (i - 1) 0 < recorder_panel.len self)%Z ->
  exists e : RecorderEntry,
    prompts_and_responses self !! Z.to_nat (Z.max (i - 1) 0) = Some e
    /\ recorder_panel.prev_button_callback self (i, p)
       = (inr tt,
          (Z.max (i - 1) 0, recorder_panel.mkPanes (prompt e) (response e))).
Proof.
  intros Hi.
  assert (Hr : (0 <= Z.max (i - 1) 0 < recorder_panel.len self)%Z) by lia.
  destruct (update_objects_in_range self _ p Hr) as [e [He Hu]].
  exists e. split; [exact He|].
  rewrite prev_button_eq, Hu. reflexivity.
Qed.

(** X15. The previous button has no upper bound on [index]: when [index],
    which all panels share, is more than one past the end of this panel's
    recorder, the click raises [IndexError], leaves the panes as they were
    and leaves [index] one lower, still out of range. *)
Theorem prev_button_raises_past_the_end (self : PromptRecorder) (i : Z)
    (p : recorder_panel.Panes) :
  (recorder_panel.len self < i)%Z ->
  recorder_panel.prev_button_callback self (i, p)
  = (inl IndexError, (i - 1, p))%Z.
Proof.
  intros Hi.
  assert (0 <= recorder_panel.len self)%Z
    by (unfold recorder_panel.len; lia).
  rewrite prev_button_eq, Z.max_l by lia.
  rewrite update_objects_above by lia. reflexivity.
Qed.

(** X16. From an [index] within the entries, [n] clicks on the next button
    bring [index] to [index + n] or to the last entry, whichever comes
    first, and [n] clicks on the previous button to [index - n] or to 0:
    the buttons saturate at both ends and never leave the range. *)
Theorem clicks_saturate (self : PromptRecorder) (n : nat) (i : Z)
    (p : recorder_panel.Panes) :
  (0 <= i < recorder_panel.len self)%Z ->
  fst (recorder_panel.clicks n (recorder_panel.next_button_callback self)
         (i, p))
  = Z.min (i + Z.of_nat n) (recorder_panel.len self - 1)
  /\ fst (recorder_panel.clicks n (recorder_panel.prev_button_callback self)
            (i, p))
     = Z.max (i - Z.of_nat n) 0.
Proof.
  revert i p. induction n as [|n IH]; intros i p Hi.
  - simpl. split; lia.
  - cbn [recorder_panel.clicks]. split.
    + rewrite next_button_eq. cbn [snd].
      destruct (IH (Z.min (i + 1) (recorder_panel.len self - 1))
                  (snd (recorder_panel.update_objects self
                          (Z.min (i + 1) (recorder_panel.len self - 1)) p)))
        as [-> _]; lia.
    + rewrite prev_button_eq. cbn [snd].
      destruct (IH (Z.max (i - 1) 0)
                  (snd (recorder_panel.update_objects self
                          (Z.max (i - 1) 0) p)))
        as [_ ->]; lia.
Qed.

(** ** [get_object_name] *)

(** X17. [get_object_name] returns the first name of the namespace that is
    bound to the object, so of two names of one object the earlier one; it
    returns [None] exactly when no name is bound to the object. *)
Theorem get_object_name_first_binding (globals : list (string * nat))
    (obj : nat) :
  match get_object_name globals obj with
  | Some name =>
      exists before after : list (string * nat),
        globals = before ++ (name, obj) :: after
        /\ Forall (fun nv => snd nv <> obj) before
  | None => Forall (fun nv => snd nv <> obj) globals
  end.
Proof.
  induction globals as [|[name value] rest IH]; simpl.
  - constructor.
  - destruct (Nat.eqb value obj) eqn:E.
    + apply Nat.eqb_eq in E. subst value.
      exists [], rest. split; [reflexivity|constructor].
    + apply Nat.eqb_neq in E.
      destruct (get_object_name rest obj) as [found|].
      * destruct IH as (before & after & -> & Hb).
        exists ((name, value) :: before), after.
        split; [reflexivity|]. constructor; assumption.
      * constructor; assumption.
Qed.

(** * The properties on concrete runs

    Each property above is run here with the collaborators of [Toy], and the
    two claims that the code does not meet as they are worded are shown to
    fail on a concrete call. *)

#[local] Existing Instance Toy.collaborators.

Lemma saved_index_is_dropped_witness :
  load_from_disk (PStr "index.json") (new_chat "gpt-4" Toy.zero)
    (ext Toy.world_saved)
  = (inr [Toy.freedonia], ext Toy.world_saved)
  /\ exists (b : QueryBot) (w1 : World),
       QueryBot_init Toy.librarian "gpt-4" Toy.zero None (Some (PStr "index.json"))
         2000 0 Toy.world_saved = (inr b, w1)
       /\ index b = None
       /\ fst (QueryBot_call Toy.question 3 (b, w1)) = inl not_initialized.
Proof.
  split; [reflexivity|].
  destruct (saved_index_is_dropped Toy.librarian "gpt-4" Toy.zero
              (PStr "index.json") 2000 0 Toy.world_saved [Toy.freedonia]
              (ext Toy.world_saved) eq_refl)
    as (b & w1 & Hinit & _ & Hidx & Hcall).
  exists b, w1. split; [exact Hinit|]. split; [exact Hidx|].
  rewrite Hcall. reflexivity.
Defined.


Lemma answer_without_index_raises_witness :
  index Toy.bot0 = None
  /\ QueryBot_call Toy.question 3 (Toy.bot0, Toy.world_rec)
     = (inl not_initialized, (Toy.bot0, Toy.world_rec)).
Proof.
  split; [reflexivity|].
  destruct (answer_without_index_raises Toy.bot0 Toy.question 3
              Toy.world_rec eq_refl) as (Hr & Hs & _).
  destruct (QueryBot_call Toy.question 3 (Toy.bot0, Toy.world_rec))
    as [r s]. simpl in Hr, Hs. rewrite Hr, Hs. reflexivity.
Defined.

Lemma failed_answer_keeps_state_witness :
  index Toy.bot1 = Some [Toy.freedonia]
  /\ chat_call (chat Toy.bot1)
       (faux_chat_history (system_message Toy.bot1)
          (map node_text [Toy.freedonia]) "")
       (ext Toy.world_rec)
     = (inl (OtherError "APIError" "empty query"), ext Toy.world_rec)
  /\ exists w' : World,
       QueryBot_call "" 1 (Toy.bot1, Toy.world_rec)
       = (inl (OtherError "APIError" "empty query"), (Toy.bot1, w'))
       /\ recorders w' = recorders Toy.world_rec.
Proof.
  split; [reflexivity|]. split; [reflexivity|].
  destruct (failed_answer_keeps_state Toy.bot1 [Toy.freedonia] "" 1
              Toy.world_rec (OtherError "APIError" "empty query") eq_refl)
    as (w' & Hc & _ & _ & Hr & _).
  - right. exists [Toy.freedonia], (ext Toy.world_rec), (ext Toy.world_rec).
    split; reflexivity.
  - exists w'. split; [exact Hc|exact Hr].
Defined.



Lemma save_normalizes_suffix_witness :
  index Toy.bot1 = Some [Toy.freedonia]
  /\ suffix (Path (PStr "index.bin")) <> ".json"
  /\ name (Path (PStr "index.bin")) <> EmptyString
  /\ exists p' : PurePath,
       QueryBot_save (PStr "index.bin") (Toy.bot1, Toy.world0)
       = liftW (invoke (CallSaveToDisk p')
                  (save_to_disk [Toy.freedonia] p'))
               (Toy.bot1, Toy.world0)
       /\ suffix p' = ".json".
Proof.
  split; [reflexivity|]. split; [discriminate|]. split; [discriminate|].
  destruct (save_normalizes_suffix Toy.bot1 [Toy.freedonia]
              (PStr "index.bin") Toy.world0 eq_refl) as (_ & H & _).
  destruct H as (p' & Hs & Hsfx & _); [discriminate|discriminate|].
  exists p'. split; [exact Hs|exact Hsfx].
Defined.

Lemma history_prefix_is_fixed_witness :
  fst (QueryBot_init Toy.librarian "gpt-4" Toy.zero (Some [PStr "freedonia.txt"])
         None 2000 0 Toy.world0)
  = inr (set_index (Some ["freedonia.txt"]) Toy.bot1)
  /\ take 2
       (chat_history
          (fst (run_ops
                  [OpAnswer Toy.question 1; OpInsert (PStr "more.txt");
                   OpSave (PStr "index.bin"); OpAnswer "" 1]
                  (set_index (Some ["freedonia.txt"]) Toy.bot1,
                   snd (QueryBot_init Toy.librarian "gpt-4" Toy.zero
                          (Some [PStr "freedonia.txt"]) None 2000 0
                          Toy.world0)))))
     = [SystemMessage Toy.librarian; SystemMessage anti_hallucination].
Proof.
  split; [reflexivity|].
  refine (proj1 (history_prefix_is_fixed Toy.librarian "gpt-4" Toy.zero
                   (Some [PStr "freedonia.txt"]) None 2000 0 Toy.world0 _
                   _ _ _)).
  reflexivity.
Defined.

Lemma save_without_index_witness :
  index Toy.bot0 = None
  /\ name (Path (PStr "index.bin")) <> EmptyString
  /\ QueryBot_save (PStr "index.bin") (Toy.bot0, Toy.world0)
     = (inl (AttributeError
               "'NoneType' object has no attribute 'save_to_disk'"),
        (Toy.bot0, Toy.world0)).
Proof.
  split; [reflexivity|]. split; [discriminate|].
  destruct (save_without_index Toy.bot0 (PStr "index.bin") Toy.world0
              eq_refl) as (Hs & _ & Hr & _).
  destruct (QueryBot_save (PStr "index.bin") (Toy.bot0, Toy.world0))
    as [r s]. simpl in Hs, Hr. rewrite Hs, Hr; [reflexivity|discriminate].
Defined.

Lemma model_never_sees_second_instruction_witness :
  In (CallChat (faux_chat_history Toy.librarian [Toy.freedonia] Toy.question))
     (calls_made Toy.world_rec
        (snd (snd (QueryBot_call Toy.question 1 (Toy.bot1, Toy.world_rec)))))
  /\ ~ In (SystemMessage anti_hallucination)
         (faux_chat_history Toy.librarian [Toy.freedonia] Toy.question)
  /\ In (SystemMessage anti_hallucination) (chat_history Toy.bot1).
Proof.
  assert (Hin : In (CallChat (faux_chat_history Toy.librarian
                               [Toy.freedonia] Toy.question))
     (calls_made Toy.world_rec
        (snd (snd (QueryBot_call Toy.question 1
                     (Toy.bot1, Toy.world_rec)))))).
  { right. left. reflexivity. }
  split; [exact Hin|]. split; [|right; left; reflexivity].
  destruct (model_never_sees_second_instruction Toy.bot1 Toy.question 1
              Toy.world_rec _ Hin)
    as (idx & nodes & x & Hi & Hq & _ & Hno & _).
  injection Hi as <-. cbn in Hq. injection Hq as <- _.
  apply Hno.
  - discriminate.
  - repeat constructor; discriminate.
Defined.

(** [save(".")] on a bot that holds an index: the suffix is not [".json"],
    yet no path is handed to the index and nothing is persisted, the call
    raises; and [save(".json")], a path that ends in [.json], persists the
    index at [.json.json]. *)
Lemma save_empty_name_counterexample :
  (suffix (Path (PStr ".")) <> ".json"
   /\ QueryBot_save (PStr ".") (Toy.bot1, Toy.world0)
      = (inl (ValueError "PosixPath('.') has an empty name"),
         (Toy.bot1, Toy.world0)))
  /\ calls_made Toy.world0
       (snd (snd (QueryBot_save (PStr ".json") (Toy.bot1, Toy.world0))))
     = [CallSaveToDisk (mkPath "" [".json.json"])].
Proof. split; [split; [discriminate|reflexivity]|reflexivity]. Qed.

(** [save(".")] on a bot without an index: the exception is the
    [ValueError] of [with_suffix], raised before the index is looked at, not
    the [AttributeError] of the absent index. *)
Lemma save_without_index_counterexample :
  index Toy.bot0 = None
  /\ QueryBot_save (PStr ".") (Toy.bot0, Toy.world0)
     = (inl (ValueError "PosixPath('.') has an empty name"),
        (Toy.bot0, Toy.world0))
  /\ fst (QueryBot_save (PStr ".") (Toy.bot0, Toy.world0))
     <> inl (AttributeError
               "'NoneType' object has no attribute 'save_to_disk'").
Proof. split; [reflexivity|]. split; [reflexivity|discriminate]. Qed.

(** A bot constructed with the anti-hallucination text as its system
    instruction: the first message the chat model is sent in an answer call
    is equal to the second fixed message of the history. *)
Lemma second_instruction_text_counterexample :
  fst (QueryBot_init anti_hallucination "gpt-4" Toy.zero
         (Some [PStr "freedonia.txt"]) None 2000 0 Toy.world0)
  = inr Runs.cautious
  /\ chat_history Runs.cautious !! 1 = Some (SystemMessage anti_hallucination)
  /\ exists msgs : list Message,
       In (CallChat msgs)
          (calls_made Toy.world0
             (snd (snd (QueryBot_call Toy.question 1
                          (Runs.cautious, Toy.world0)))))
       /\ In (SystemMessage anti_hallucination) msgs.
Proof.
  split; [reflexivity|]. split; [reflexivity|].
  exists (faux_chat_history anti_hallucination ["freedonia.txt"] Toy.question).
  split.
  - right. left. reflexivity.
  - left. reflexivity.
Qed.

(** ** Runs of the further properties *)

Lemma query_record_last_write_wins_witness :
  QueryBot_call Toy.question 1 (Toy.bot1, Toy.world_rec)
  = (inr Toy.answer,
     snd (QueryBot_call Toy.question 1 (Toy.bot1, Toy.world_rec)))
  /\ source_nodes
       (fst (snd (QueryBot_call Toy.question 1 (Toy.bot1, Toy.world_rec))))
       !! Toy.question
     = Some [Toy.freedonia].
Proof.
  split; [reflexivity|].
  destruct (query_record_last_write_wins Toy.bot1
              (fst (snd (QueryBot_call Toy.question 1
                           (Toy.bot1, Toy.world_rec))))
              Toy.question 1 Toy.world_rec
              (snd (snd (QueryBot_call Toy.question 1
                           (Toy.bot1, Toy.world_rec))))
              Toy.answer eq_refl)
    as (idx & nodes & x & Hi & Hq & Hs & _).
  injection Hi as <-. cbn in Hq. injection Hq as <- _. exact Hs.
Defined.

Lemma bot_without_documents_never_answers_witness :
  QueryBot_init Toy.librarian "gpt-4" Toy.zero None (Some (PStr "index.json"))
    2000 0 Toy.world_saved
  = (inr Toy.bot0,
     snd (QueryBot_init Toy.librarian "gpt-4" Toy.zero None
            (Some (PStr "index.json")) 2000 0 Toy.world_saved))
  /\ fst (QueryBot_call Toy.question 1
            (run_ops [OpInsert (PStr "more.txt"); OpSave (PStr "index.bin");
                      OpAnswer Toy.question 1]
               (Toy.bot0,
                snd (QueryBot_init Toy.librarian "gpt-4" Toy.zero None
                       (Some (PStr "index.json")) 2000 0 Toy.world_saved))))
     = inl not_initialized.
Proof.
  split; [reflexivity|].
  apply (bot_without_documents_never_answers Toy.librarian "gpt-4" Toy.zero
           (Some (PStr "index.json")) 2000 0 Toy.world_saved).
  reflexivity.
Defined.

Lemma insert_without_index_witness :
  index Toy.bot0 = None
  /\ fst (QueryBot_insert (PStr "x.txt") (Toy.bot0, Toy.world0))
     = inl (AttributeError "'NoneType' object has no attribute 'insert'")
  /\ fst (snd (QueryBot_insert (PStr "x.txt") (Toy.bot0, Toy.world0)))
     = Toy.bot0.
Proof.
  split; [reflexivity|].
  rewrite (insert_without_index Toy.bot0 (PStr "x.txt") Toy.world0
             "x.txt" ["x.txt"] (ext Toy.world0) (ext Toy.world0)
             eq_refl eq_refl eq_refl).
  split; reflexivity.
Defined.

Lemma insert_is_in_order_witness :
  index Toy.bot1 = Some [Toy.freedonia]
  /\ Inserted [Toy.freedonia] (ext Toy.world0) ["x.txt"]
       [Toy.freedonia; "x.txt"] (ext Toy.world0)
  /\ QueryBot_insert (PStr "x.txt") (Toy.bot1, Toy.world0)
     = (inr tt,
        (set_index (Some [Toy.freedonia; "x.txt"]) Toy.bot1,
         after_inserts (PStr "x.txt") 2000 0 ["x.txt"] (ext Toy.world0)
           Toy.world0)).
Proof.
  assert (Hall : Inserted [Toy.freedonia] (ext Toy.world0) ["x.txt"]
                   [Toy.freedonia; "x.txt"] (ext Toy.world0)).
  { exact (@Inserted_cons Toy.collaborators [Toy.freedonia]
             (ext Toy.world0) "x.txt" [] [Toy.freedonia; "x.txt"]
             (ext Toy.world0) [Toy.freedonia; "x.txt"] (ext Toy.world0)
             eq_refl
             (@Inserted_nil Toy.collaborators [Toy.freedonia; "x.txt"]
                (ext Toy.world0))). }
  split; [reflexivity|]. split; [exact Hall|].
  exact (proj1 (insert_is_in_order Toy.bot1 [Toy.freedonia] (PStr "x.txt")
                  Toy.world0 "x.txt" ["x.txt"] (ext Toy.world0)
                  (ext Toy.world0) eq_refl eq_refl eq_refl)
               [Toy.freedonia; "x.txt"] (ext Toy.world0) Hall).
Defined.

Lemma saved_index_with_empty_documents_witness :
  load_from_disk (PStr "index.json") (new_chat "gpt-4" Toy.zero)
    (ext Toy.world_saved)
  = (inr [Toy.freedonia], ext Toy.world_saved)
  /\ exists (b : QueryBot) (w1 : World),
       QueryBot_init Toy.librarian "gpt-4" Toy.zero (Some [])
         (Some (PStr "index.json")) 2000 0 Toy.world_saved = (inr b, w1)
       /\ index b = Some [Toy.freedonia].
Proof.
  split; [reflexivity|].
  destruct (saved_index_with_empty_documents Toy.librarian "gpt-4" Toy.zero
              (PStr "index.json") 2000 0 Toy.world_saved [Toy.freedonia]
              (ext Toy.world_saved) eq_refl)
    as (b & w1 & Hinit & Hidx & _).
  exists b, w1. split; [exact Hinit|exact Hidx].
Defined.

Lemma constructor_then_insert_witness :
  QueryBot_init Toy.librarian "gpt-4" Toy.zero (Some [PStr "a.txt"]) None
    2000 0 Toy.world0
  = (inr (Runs.built [PStr "a.txt"] ["a.txt"]),
     snd (QueryBot_init Toy.librarian "gpt-4" Toy.zero (Some [PStr "a.txt"])
            None 2000 0 Toy.world0))
  /\ snd (QueryBot_init Toy.librarian "gpt-4" Toy.zero
            (Some ([PStr "a.txt"] ++ [PStr "b.txt"])) None 2000 0 Toy.world0)
     = snd (snd (QueryBot_insert (PStr "b.txt")
                   (Runs.built [PStr "a.txt"] ["a.txt"],
                    snd (QueryBot_init Toy.librarian "gpt-4" Toy.zero
                           (Some [PStr "a.txt"]) None 2000 0 Toy.world0)))).
Proof.
  split; [reflexivity|].
  refine (proj1 (constructor_then_insert Toy.librarian "gpt-4" Toy.zero
                   [PStr "a.txt"] (PStr "b.txt") None 2000 0 Toy.world0
                   _ _ _)).
  reflexivity.
Defined.

Lemma history_is_turns_and_record_has_their_queries_witness :
  QueryBot_init Toy.librarian "gpt-4" Toy.zero
    (Some [PStr "freedonia.txt"]) None 2000 0 Toy.world0
  = (inr (Runs.built [PStr "freedonia.txt"] ["freedonia.txt"]),
     snd (QueryBot_init Toy.librarian "gpt-4" Toy.zero
            (Some [PStr "freedonia.txt"]) None 2000 0 Toy.world0))
  /\ chat_history
       (fst (run_ops
               [OpAnswer Toy.question 1; OpInsert (PStr "more.txt");
                OpAnswer "" 1; OpAnswer Toy.question 2]
               (Runs.built [PStr "freedonia.txt"] ["freedonia.txt"],
                snd (QueryBot_init Toy.librarian "gpt-4" Toy.zero
                       (Some [PStr "freedonia.txt"]) None 2000 0
                       Toy.world0))))
     = [SystemMessage Toy.librarian; SystemMessage anti_hallucination;
        HumanMessage Toy.question; Toy.answer;
        HumanMessage Toy.question; Toy.answer].
Proof.
  split; [reflexivity|].
  refine (proj1 (history_is_turns_and_record_has_their_queries Toy.librarian
                   "gpt-4" Toy.zero (Some [PStr "freedonia.txt"]) None 2000 0
                   Toy.world0
                   (snd (QueryBot_init Toy.librarian "gpt-4" Toy.zero
                           (Some [PStr "freedonia.txt"]) None 2000 0
                           Toy.world0))
                   (Runs.built [PStr "freedonia.txt"] ["freedonia.txt"])
                   [OpAnswer Toy.question 1; OpInsert (PStr "more.txt");
                    OpAnswer "" 1; OpAnswer Toy.question 2] eq_refl)).
Defined.

Lemma recorder_mirrors_answers_witness :
  ctx_get (prompt_recorder_var Toy.world_rec) None = Some 0
  /\ recorders Toy.world_rec !! 0 = Some (mkRecorder [])
  /\ recorders
       (answer_calls [(Toy.bot1, Toy.question, 1%Z);
                      (Toy.bot0, Toy.question, 1%Z);
                      (Toy.bot1, EmptyString, 1%Z)] Toy.world_rec)
     = <[0 := mkRecorder [mkEntry Toy.question (content Toy.answer)]]>
         (recorders Toy.world_rec).
Proof.
  split; [reflexivity|]. split; [reflexivity|].
  refine (proj1 (recorder_mirrors_answers
                   [(Toy.bot1, Toy.question, 1%Z);
                    (Toy.bot0, Toy.question, 1%Z);
                    (Toy.bot1, EmptyString, 1%Z)] Toy.world_rec 0 []
                   eq_refl eq_refl)).
Defined.

(** The second of three blocks cannot be written: the file is left with
    the first block, the third is not written, and [save] raises. *)
Lemma save_writes_the_blocks_witness :
  Runs.never_fails Runs.old_files (Path (PStr "log.md")) = None
  /\ recorder_file.writable Runs.ascii_only "log.md" [mkEntry "q1" "a1"]
  /\ recorder_file.PromptRecorder_save Runs.never_fails Runs.ascii_only
       Runs.closes Runs.three (PStr "log.md") Runs.old_files
     = (inl (OtherError "UnicodeEncodeError" "cannot encode"),
        <["log.md" := recorder_file.blocks [mkEntry "q1" "a1"]]>
          Runs.old_files).
Proof.
  assert (Hw : recorder_file.writable Runs.ascii_only "log.md"
                 [mkEntry "q1" "a1"]).
  { constructor; [intros fs0; reflexivity|constructor]. }
  split; [reflexivity|]. split; [exact Hw|].
  destruct (save_writes_the_blocks Runs.never_fails Runs.ascii_only
              Runs.closes Runs.three (PStr "log.md") Runs.old_files)
    as (_ & _ & Hfail & _).
  exact (Hfail [mkEntry "q1" "a1"] [mkEntry "q3" "a3"] (mkEntry "q2" "a2")
           (OtherError "UnicodeEncodeError" "cannot encode")
           (recorder_file.blocks [mkEntry "q1" "a1"])
           eq_refl eq_refl Hw eq_refl eq_refl).
Defined.

Lemma save_after_log_extends_witness :
  recorders Toy.world_rec !! 0 = Some (mkRecorder [])
  /\ exists (self' : PromptRecorder) (old : string),
       recorders (snd (PromptRecorder_log 0 "q" "a" Toy.world_rec)) !! 0
       = Some self'
       /\ recorder_file.PromptRecorder_save Runs.never_fails Runs.writes
            Runs.closes (mkRecorder []) (PStr "log.md") Runs.old_files
          = (inr tt, <["log.md" := old]> Runs.old_files)
       /\ recorder_file.PromptRecorder_save Runs.never_fails Runs.writes
            Runs.closes self' (PStr "log.md") Runs.old_files
          = (inr tt,
             <["log.md" := old +:+ recorder_file.block (mkEntry "q" "a")]>
               Runs.old_files).
Proof.
  split; [reflexivity|].
  exact (save_after_log_extends Runs.never_fails Runs.writes Runs.closes
           0 (mkRecorder []) "q" "a" (PStr "log.md") Toy.world_rec
           Runs.old_files Runs.old_files eq_refl eq_refl eq_refl
           (fun _ _ => eq_refl) (fun _ => eq_refl)).
Defined.

Lemma next_button_stays_in_range_witness :
  (0 < recorder_panel.len Runs.three)%Z
  /\ recorder_panel.next_button_callback Runs.three
       (2%Z, recorder_panel.mkPanes "q3" "a3")
     = (inr tt, (2%Z, recorder_panel.mkPanes "q3" "a3")).
Proof.
  split; [reflexivity|].
  destruct (next_button_stays_in_range Runs.three 2
              (recorder_panel.mkPanes "q3" "a3"))
    as (e & He & _ & Hn); [reflexivity|discriminate|].
  cbn in He. injection He as <-. exact Hn.
Defined.

Lemma prev_button_stays_in_range_witness :
  (Z.max (2 - 1) 0 < recorder_panel.len Runs.three)%Z
  /\ recorder_panel.prev_button_callback Runs.three
       (2%Z, recorder_panel.mkPanes "q3" "a3")
     = (inr tt, (1%Z, recorder_panel.mkPanes "q2" "a2")).
Proof.
  split; [reflexivity|].
  destruct (prev_button_stays_in_range Runs.three 2
              (recorder_panel.mkPanes "q3" "a3"))
    as (e & He & Hp); [reflexivity|].
  cbn in He. injection He as <-. exact Hp.
Defined.

(** Two panels, one on a recorder with three entries and one on a recorder
    with one entry: two clicks on the next button of the first bring the
    shared [index] to 2, and the previous button of the second raises. *)
Lemma prev_button_raises_past_the_end_witness :
  fst (recorder_panel.clicks 2
         (recorder_panel.next_button_callback Runs.three)
         (snd (recorder_panel.panel Runs.one
                 (snd (recorder_panel.panel Runs.three 0%Z))),
          recorder_panel.mkPanes "q1" "a1")) = 2%Z
  /\ (recorder_panel.len Runs.one < 2)%Z
  /\ recorder_panel.prev_button_callback Runs.one
       (2%Z, recorder_panel.mkPanes "q" "a")
     = (inl IndexError, (1%Z, recorder_panel.mkPanes "q" "a")).
Proof.
  split; [reflexivity|]. split; [reflexivity|].
  exact (prev_button_raises_past_the_end Runs.one 2
           (recorder_panel.mkPanes "q" "a") eq_refl).
Defined.

Lemma clicks_saturate_witness :
  (0 <= 1 < recorder_panel.len Runs.three)%Z
  /\ fst (recorder_panel.clicks 5
            (recorder_panel.next_button_callback Runs.three)
            (1%Z, recorder_panel.mkPanes "q2" "a2")) = 2%Z
  /\ fst (recorder_panel.clicks 5
            (recorder_panel.prev_button_callback Runs.three)
            (1%Z, recorder_panel.mkPanes "q2" "a2")) = 0%Z.
Proof.
  split; [split; [discriminate|reflexivity]|].
  apply (clicks_saturate Runs.three 5 1 (recorder_panel.mkPanes "q2" "a2")).
  split; [discriminate|reflexivity].
Defined.
